(** * WhatsApp automation bot: scheduling and dispatch

    A shallow embedding of [whatsapp_automation.py] (class [WhatsAppBot]) and
    the properties of its validation, dispatch and scheduling code.

    Python text is modelled as [string] (a sequence of bytes, read as the
    UTF-8 encoding of the text).  The characters the code treats specially
    (space, hyphen, parentheses, [+], [.], [/], the letters [A]-[Z]) are all
    ASCII, and no multi-byte UTF-8 sequence contains an ASCII byte, so the
    byte-level operations below agree with Python's on such text;
    [str.lower] is modelled on the ASCII letters only. *)

From Stdlib Require Import ZArith Ascii String.
From stdpp Require Import base option list gmap strings pretty.

Local Open Scope Z_scope.

(** ** Python string operations used by the bot *)

Module PyStr.

(** [s.replace(c, '')] for a one-character [c]: every occurrence goes. *)
Fixpoint remove (c : ascii) (s : string) : string :=
  match s with
  | EmptyString => EmptyString
  | String a s' => if Ascii.eqb a c then remove c s' else String a (remove c s')
  end.

(** [s.startswith(c)] for a one-character [c]. *)
Definition startswith (c : ascii) (s : string) : bool :=
  match s with
  | EmptyString => false
  | String a _ => Ascii.eqb a c
  end.

Definition lower_char (a : ascii) : ascii :=
  let n := Z.of_N (N_of_ascii a) in
  if (65 <=? n) && (n <=? 90) then ascii_of_N (Z.to_N (n + 32)) else a.

(** [s.lower()] on ASCII text: the letters [A]-[Z] are folded, every other
    byte is kept.  Python also folds letters outside ASCII; what is stated
    about the case of letters below is stated for ASCII text. *)
Fixpoint lower (s : string) : string :=
  match s with
  | EmptyString => EmptyString
  | String a s' => String (lower_char a) (lower s')
  end.

Fixpoint rfind_from (c : ascii) (s : string) (i acc : Z) : Z :=
  match s with
  | EmptyString => acc
  | String a s' => rfind_from c s' (i + 1) (if Ascii.eqb a c then i else acc)
  end.

(** [s.rfind(c)]: the last index of [c], or [-1]. *)
Definition rfind (c : ascii) (s : string) : Z := rfind_from c s 0 (-1).

(** [s[:k]] and [s[k:]] for [0 <= k]. *)
Fixpoint take (k : nat) (s : string) : string :=
  match k, s with
  | S k', String a s' => String a (take k' s')
  | _, _ => EmptyString
  end.

Fixpoint drop (k : nat) (s : string) : string :=
  match k, s with
  | S k', String _ s' => drop k' s'
  | _, _ => s
  end.

(** [s[i:i+1] != c]; out of range the slice is empty, hence different. *)
Definition char_differs (s : string) (i : Z) (c : ascii) : bool :=
  match String.get (Z.to_nat i) s with
  | Some a => negb (Ascii.eqb a c)
  | None => true
  end.

(** Python truthiness of a [str]. *)
Definition truthy (s : string) : bool :=
  match s with EmptyString => false | _ => true end.

End PyStr.

(** ** [os.path.splitext] (posixpath: separator [/], no alternative one) *)

Module OsPath.

(** The [while filenameIndex < dotIndex] loop of [genericpath._splitext]:
    [true] when a character other than the dot is met before [dotIndex]. *)
Fixpoint name_before_dot (p : string) (filenameIndex : Z) (steps : nat) : bool :=
  match steps with
  | O => false
  | S steps' =>
      if PyStr.char_differs p filenameIndex "."
      then true
      else name_before_dot p (filenameIndex + 1) steps'
  end.

Definition splitext (p : string) : string * string :=
  let sepIndex := PyStr.rfind "/" p in
  let dotIndex := PyStr.rfind "." p in
  if (dotIndex >? sepIndex)
     && name_before_dot p (sepIndex + 1) (Z.to_nat (dotIndex - (sepIndex + 1)))
  then (PyStr.take (Z.to_nat dotIndex) p, PyStr.drop (Z.to_nat dotIndex) p)
  else (p, EmptyString).

End OsPath.

(** ** The parsed configuration document

    [yaml.safe_load] yields nested dictionaries.  Every dictionary the bot
    reads is a record whose fields are optional: [None] is an absent key, and
    [d.get(k, dflt)] is [default dflt (k d)]. *)

Record MessageInfo := {
  m_type : option string;
  m_content : option string;
  m_image_path : option string;
  m_caption : option string;
  m_time : option string
}.

Record ContactInfo := {
  c_name : option string;
  c_phone : option string;
  c_messages : option (list MessageInfo)
}.

Record Contacts := {
  personal : option (list ContactInfo);
  groups : option (list ContactInfo)
}.

Record Settings := {
  wait_time : option Z;
  close_tab : option bool;
  image_formats : option (list string);
  timezone : option string
}.

Record ConfigDoc := {
  contacts : option Contacts;
  settings : option Settings
}.

(** [self.config]: [None] is the empty dictionary [{}] (falsy in Python),
    [Some doc] a dictionary with at least one key. *)
Record WhatsAppBot := {
  config_file : string;
  config : option ConfigDoc
}.

(** ** The world outside the bot *)

(** What a path of the file system holds. *)
Inductive File :=
| YamlFile (doc : option ConfigDoc)   (* a document [yaml.safe_load] parses *)
| BadYamlFile (err : string)          (* text on which it raises [YAMLError] *)
| OtherFile.                          (* anything else, such as an image or a
                                         directory; reading it as text fails *)

(** The three [pywhatkit] operations the bot invokes, with their keyword
    arguments; [caption] is [None] when the keyword is not passed. *)
Inductive TransportCall :=
| sendwhatmsg_instantly (phone_no message : string) (wait : Z) (tab_close : bool)
| sendwhats_image (receiver img_path : string) (caption : option string)
    (wait : Z) (tab_close : bool)
| sendwhatmsg_to_group_instantly (group_id message : string) (wait : Z)
    (tab_close : bool).

Inductive Level := INFO | WARNING | ERROR.

(** What a run leaves behind, in order: log records, lines printed, and the
    transport operations invoked. *)
Inductive Event :=
| Log (lvl : Level) (msg : string)
| Print (msg : string)
| Call (c : TransportCall).

(** A job as [schedule.every().day.at(time_str).do(self.process_message,
    contact, message, is_group)] registers it. *)
Record Job := {
  j_at : string;
  j_contact : ContactInfo;
  j_message : MessageInfo;
  j_is_group : bool
}.

(** Modelled from the spec: the [schedule] package, whose registry and
    [run_pending] decide when a job fires, is a third-party library and not
    part of the source.  Following the spec's scheduler, an entry of the
    registry carries a per-day fired flag: the date (a day number) on which
    the job last fired, if any; the flag is set for a date when it holds
    that very date, so it resets on date rollover. *)
Record Entry := {
  e_job : Job;
  e_fired_on : option Z
}.

(** Modelled from the spec: a reading of the wall clock, the date as a day
    number. *)
Record Timestamp := {
  ts_date : Z;
  ts_hour : Z;
  ts_minute : Z;
  ts_second : Z
}.

Record World := {
  files : gmap string File;
  registry : list Entry
}.

Global Instance TransportCall_eq_dec : EqDecision TransportCall.
Proof. solve_decision. Defined.
Global Instance Level_eq_dec : EqDecision Level.
Proof. solve_decision. Defined.
Global Instance Event_eq_dec : EqDecision Event.
Proof. solve_decision. Defined.


(** ** Effects: exceptions, the world, and the trace of events *)

(** Python exceptions, each with its [str(e)]. *)
Inductive Exn :=
| Exception (msg : string)            (* raised inside a [pywhatkit] call *)
| ScheduleValueError (msg : string)   (* raised by [schedule]'s [at] *)
| ReadError (msg : string).           (* [open]/[read] failing other than by
                                         [FileNotFoundError] *)

Definition exn_str (e : Exn) : string :=
  match e with
  | Exception msg | ScheduleValueError msg | ReadError msg => msg
  end.

Inductive Res (A : Type) :=
| Ret (a : A)
| Raise (e : Exn).
Arguments Ret {A} a.
Arguments Raise {A} e.

(** A computation returns or raises, leaves a world, and emits events. *)
Definition M (A : Type) : Type := World → Res A * World * list Event.

Global Instance M_ret : MRet M := λ A a w, (Ret a, w, []).

Global Instance M_bind : MBind M := λ A B f m w,
  match m w with
  | (Ret a, w1, ev1) => let '(r, w2, ev2) := f a w1 in (r, w2, ev1 ++ ev2)
  | (Raise e, w1, ev1) => (Raise e, w1, ev1)
  end.

Global Instance M_throw : MThrow Exn M := λ A e w, (Raise e, w, []).

(** [try: body except Exception as e: handler e]. *)
Definition try_except {A} (body : M A) (handler : Exn → M A) : M A := λ w,
  match body w with
  | (Ret a, w1, ev1) => (Ret a, w1, ev1)
  | (Raise e, w1, ev1) => let '(r, w2, ev2) := handler e w1 in (r, w2, ev1 ++ ev2)
  end.

(** A record goes to the trace.  The file handler of the module also
    appends it to [whatsapp_bot.log]; that file is left out of [files], and
    nothing is stated about it. *)
Definition emit (e : Event) : M unit := λ w, (Ret tt, w, [e]).
Definition logger_info (msg : string) : M unit := emit (Log INFO msg).
Definition logger_warning (msg : string) : M unit := emit (Log WARNING msg).
Definition logger_error (msg : string) : M unit := emit (Log ERROR msg).
Definition print (msg : string) : M unit := emit (Print msg).

Definition get_world : M World := λ w, (Ret w, w, []).
Definition put_world (w' : World) : M unit := λ _, (Ret tt, w', []).

(** Projections of one run. *)
Definition result {A} (r : Res A * World * list Event) : Res A := r.1.1.
Definition world_after {A} (r : Res A * World * list Event) : World := r.1.2.
Definition events {A} (r : Res A * World * list Event) : list Event := r.2.

(** The transport operations invoked during a run, in order. *)
Definition calls (evs : list Event) : list TransportCall :=
  omap (λ e, match e with Call c => Some c | _ => None end) evs.

Definition log_records (evs : list Event) : list (Level * string) :=
  omap (λ e, match e with Log l m => Some (l, m) | _ => None end) evs.

(** ** How the source reports what became of a message

    [process_message] returns nothing; what happened to the message is told
    by the log alone.  A message that went out ends on an [INFO] record
    ("... sent successfully ..."), one left out on purpose on a [WARNING]
    record, one that failed on an [ERROR] record.  [outcome] reads the last
    record of a dispatch that way; a dispatch that logged nothing reported
    nothing. *)
Inductive DispatchOutcome :=
| Sent
| Skipped (reason : string)
| Failed (reason : string).

Definition outcome (evs : list Event) : option DispatchOutcome :=
  match last (log_records evs) with
  | Some (INFO, _) => Some Sent
  | Some (WARNING, msg) => Some (Skipped msg)
  | Some (ERROR, msg) => Some (Failed msg)
  | None => None
  end.

(** The sample document of [create_sample_config]. *)
Definition sample_config : ConfigDoc := {|
  contacts := Some {|
    personal := Some [
      {| c_name := Some "John Doe";
         c_phone := Some "+1234567890";
         c_messages := Some [
           {| m_type := Some "text";
              m_content := Some "Good morning! Have a great day!";
              m_image_path := None; m_caption := None;
              m_time := Some "09:00" |} ] |} ];
    groups := Some [
      {| c_name := Some "Family Group";
         c_phone := None;
         c_messages := Some [
           {| m_type := Some "text";
              m_content := Some "Good morning everyone!";
              m_image_path := None; m_caption := None;
              m_time := Some "08:30" |};
           {| m_type := Some "image";
              m_content := None;
              m_image_path := Some "images/motivational_quote.jpg";
              m_caption := Some "Daily motivation!";
              m_time := Some "18:00" |} ] |} ] |};
  settings := Some {|
    wait_time := Some 20;
    close_tab := Some true;
    image_formats := Some [".jpg"; ".jpeg"; ".png"; ".gif"];
    timezone := Some "local" |}
|}.

(** ** The scheduler's firing rule

    Modelled from the spec: the source registers its jobs with the
    [schedule] package and calls [schedule.run_pending()] once a minute;
    the package itself, which decides when a registered job runs, is not
    part of the source.  The definitions of this module follow the spec's
    scheduler: a job fires when its time of day is the current minute and it
    has not fired yet on the current date. *)

Module Scheduler.

Definition digit (n : Z) : ascii := ascii_of_N (Z.to_N (48 + n)).

Definition two_digits (n : Z) : string :=
  String (digit (n / 10)) (String (digit (n mod 10)) EmptyString).

(** The minute-resolution wall-clock time of [now], written [HH:MM]. *)
Definition hhmm (now : Timestamp) : string :=
  two_digits (ts_hour now) +:+ ":" +:+ two_digits (ts_minute now).

(** The per-day fired flag is set for the current date. *)
Definition fired_today (now : Timestamp) (e : Entry) : bool :=
  bool_decide (e_fired_on e = Some (ts_date now)).

(** Modelled from the spec: [schedule]'s rule for a due job is not in the
    source.  A job is due when its time of day equals the minute-resolution
    wall-clock time of [now] and its fired flag is not yet set for the
    current date. *)
Definition is_due (now : Timestamp) (e : Entry) : bool :=
  String.eqb (j_at (e_job e)) (hhmm now) && negb (fired_today now e).

Definition mark (now : Timestamp) (e : Entry) : Entry :=
  if is_due now e
  then {| e_job := e_job e; e_fired_on := Some (ts_date now) |}
  else e.

(** Modelled from the spec: [schedule.run_pending]'s choice of jobs is not in
    the source.  [tick] returns every due job, in registry order, and marks
    each returned job fired for the date of [now] in the same step. *)
Definition tick (now : Timestamp) (jobs : list Entry) : list Job * list Entry :=
  (e_job <$> filter (λ e, is_due now e = true) jobs, mark now <$> jobs).

(** The [i]-th job of the registry fires at the tick of [now]. *)
Definition fires (now : Timestamp) (jobs : list Entry) (i : nat) : bool :=
  from_option (is_due now) false (jobs !! i).

(** Two clock readings fall in the same minute of the same date. *)
Definition same_minute (t1 t2 : Timestamp) : Prop :=
  ts_date t1 = ts_date t2 ∧ ts_hour t1 = ts_hour t2 ∧ ts_minute t1 = ts_minute t2.

(** The same time of day, one day later. *)
Definition next_day (t : Timestamp) : Timestamp :=
  {| ts_date := ts_date t + 1; ts_hour := ts_hour t;
     ts_minute := ts_minute t; ts_second := ts_second t |}.

End Scheduler.

(** ** The bot *)

Section Bot.

(** The two libraries the bot drives are not part of it.  [kit_raises c] is
    [Some msg] when the [pywhatkit] operation [c] raises an exception whose
    text is [msg].  [at_rejects t] is [Some msg] when [schedule]'s
    [at(t)] refuses the time string [t] with a [ScheduleValueError]. *)
Variable kit_raises : TransportCall → option string.
Variable at_rejects : string → option string.

Definition kit (c : TransportCall) : M unit := λ w,
  match kit_raises c with
  | None => (Ret tt, w, [Call c])
  | Some msg => (Raise (Exception msg), w, [Call c])
  end.

Definition create_sample_config (config_file : string) : M unit :=
  w ← get_world;
  put_world {| files := <[config_file := YamlFile (Some sample_config)]> (files w);
               registry := registry w |};;
  logger_info ("Sample configuration created at " +:+ config_file);;
  print ("Please edit " +:+ config_file +:+ " with your contacts and messages").

(** For a file with no document at all [yaml.safe_load] returns Python's
    [None] rather than [{}]; both are falsy and both are [YamlFile None]
    here.  They differ only when the settings are read ([None] has no
    [get]), so what is stated about reading settings leaves [YamlFile None]
    out. *)
Definition load_config (config_file : string) : M (option ConfigDoc) :=
  w ← get_world;
  match files w !! config_file with
  | Some (YamlFile doc) =>
      logger_info ("Configuration loaded from " +:+ config_file);;
      mret doc
  | None =>
      logger_error ("Configuration file " +:+ config_file +:+ " not found");;
      create_sample_config config_file;;
      mret None
  | Some (BadYamlFile err) =>
      logger_error ("Error parsing YAML configuration: " +:+ err);;
      mret None
  | Some OtherFile => mthrow (ReadError config_file)
  end.

(** [WhatsAppBot(config_file)]. *)
Definition init (config_file : string) : M WhatsAppBot :=
  cfg ← load_config config_file;
  logger_info "WhatsApp Bot initialized successfully";;
  mret {| config_file := config_file; config := cfg |}.

(** [self.config.get('settings', {}).get(key, dflt)]. *)
Definition setting {A} (self : WhatsAppBot) (key : Settings → option A) (dflt : A) : A :=
  default dflt ((config self ≫= settings) ≫= key).

Definition validate_phone_number (phone : string) : M string :=
  let phone :=
    PyStr.remove ")" (PyStr.remove "(" (PyStr.remove "-" (PyStr.remove " " phone))) in
  if negb (PyStr.startswith "+" phone) then
    logger_warning ("Phone number " +:+ phone +:+ " doesn't start with country code (+)");;
    mret phone
  else mret phone.

Definition supported_formats (self : WhatsAppBot) : list string :=
  setting self image_formats [".jpg"; ".jpeg"; ".png"; ".gif"].

Definition validate_image_path (self : WhatsAppBot) (image_path : string) : M bool :=
  w ← get_world;
  if negb (bool_decide (is_Some (files w !! image_path))) then
    logger_error ("Image file not found: " +:+ image_path);;
    mret false
  else
    let file_extension := PyStr.lower (OsPath.splitext image_path).2 in
    if negb (bool_decide (file_extension ∈ supported_formats self)) then
      logger_error ("Unsupported image format: " +:+ file_extension);;
      mret false
    else mret true.

Definition send_text_message (self : WhatsAppBot) (phone message contact_name : string)
  : M unit :=
  try_except
    (phone ← validate_phone_number phone;
     let wait_time := setting self wait_time 20 in
     let close_tab := setting self close_tab true in
     logger_info ("Sending text message to " +:+ contact_name +:+ " (" +:+ phone +:+ ")");;
     kit (sendwhatmsg_instantly phone message wait_time close_tab);;
     logger_info ("Text message sent successfully to " +:+ contact_name))
    (λ e, logger_error ("Failed to send text message to " +:+ contact_name +:+ ": "
                        +:+ exn_str e)).

Definition send_image_message (self : WhatsAppBot)
    (phone image_path caption contact_name : string) : M unit :=
  try_except
    (ok ← validate_image_path self image_path;
     if negb ok then mret tt
     else
       phone ← validate_phone_number phone;
       let wait_time := setting self wait_time 20 in
       let close_tab := setting self close_tab true in
       logger_info ("Sending image to " +:+ contact_name +:+ " (" +:+ phone +:+ ")");;
       if PyStr.truthy caption then
         kit (sendwhats_image phone image_path (Some caption) wait_time close_tab);;
         logger_info ("Image with caption sent successfully to " +:+ contact_name)
       else
         kit (sendwhats_image phone image_path None wait_time close_tab);;
         logger_info ("Image sent successfully to " +:+ contact_name))
    (λ e, logger_error ("Failed to send image to " +:+ contact_name +:+ ": "
                        +:+ exn_str e)).

Definition send_group_message (self : WhatsAppBot) (group_name message : string) : M unit :=
  try_except
    (let wait_time := setting self wait_time 20 in
     let close_tab := setting self close_tab true in
     logger_info ("Sending text message to group: " +:+ group_name);;
     kit (sendwhatmsg_to_group_instantly group_name message wait_time close_tab);;
     logger_info ("Text message sent successfully to group: " +:+ group_name))
    (λ e, logger_error ("Failed to send message to group " +:+ group_name +:+ ": "
                        +:+ exn_str e)).

Definition process_message (self : WhatsAppBot) (contact_info : ContactInfo)
    (message_info : MessageInfo) (is_group : bool) : M unit :=
  try_except
    (let message_type := default "text" (m_type message_info) in
     if is_group then
       let contact_identifier := default "Unknown Group" (c_name contact_info) in
       if String.eqb message_type "text" then
         let content := default "" (m_content message_info) in
         send_group_message self contact_identifier content
       else if String.eqb message_type "image" then
         logger_warning
           "Image sending to groups is limited. Consider sending to individual members."
       else mret tt
     else
       let phone := default "" (c_phone contact_info) in
       let contact_name := default "Unknown" (c_name contact_info) in
       if String.eqb message_type "text" then
         let content := default "" (m_content message_info) in
         send_text_message self phone content contact_name
       else if String.eqb message_type "image" then
         let image_path := default "" (m_image_path message_info) in
         let caption := default "" (m_caption message_info) in
         send_image_message self phone image_path caption contact_name
       else mret tt)
    (λ e, logger_error ("Error processing message: " +:+ exn_str e)).

(** [for x in l: body x]. *)
Fixpoint for_each {A} (l : list A) (body : A → M unit) : M unit :=
  match l with
  | [] => mret tt
  | x :: l' => body x;; for_each l' body
  end.

(** [schedule.every().day.at(time_str).do(self.process_message, contact,
    message, is_group)]: [at] checks the time string, [do] appends the job to
    the registry. *)
Definition every_day_at_do (time_str : string) (contact : ContactInfo)
    (message : MessageInfo) (is_group : bool) : M unit :=
  match at_rejects time_str with
  | Some msg => mthrow (ScheduleValueError msg)
  | None =>
      w ← get_world;
      put_world {| files := files w;
                   registry := registry w ++
                     [ {| e_job := {| j_at := time_str; j_contact := contact;
                                      j_message := message; j_is_group := is_group |};
                          e_fired_on := None |} ] |}
  end.

Definition schedule_messages (self : WhatsAppBot) : M unit :=
  match config self with
  | None => logger_error "No configuration loaded. Cannot schedule messages."
  | Some cfg =>
      let contacts := contacts cfg in
      let personal_contacts := default [] (contacts ≫= personal) in
      for_each personal_contacts (λ contact,
        let messages := default [] (c_messages contact) in
        for_each messages (λ message,
          let time_str := default "" (m_time message) in
          if PyStr.truthy time_str then
            every_day_at_do time_str contact message false;;
            logger_info ("Scheduled message for " +:+ default "Unknown" (c_name contact)
                         +:+ " at " +:+ time_str)
          else mret tt));;
      let groups := default [] (contacts ≫= groups) in
      for_each groups (λ group,
        let messages := default [] (c_messages group) in
        for_each messages (λ message,
          let time_str := default "" (m_time message) in
          if PyStr.truthy time_str then
            every_day_at_do time_str group message true;;
            logger_info ("Scheduled message for group "
                         +:+ default "Unknown" (c_name group) +:+ " at " +:+ time_str)
          else mret tt))
  end.

(** One [schedule.run_pending()] at the clock reading [now]: the due jobs are
    chosen and marked, then each runs its [process_message] in turn. *)
Definition run_pending (self : WhatsAppBot) (now : Timestamp) : M unit :=
  w ← get_world;
  let '(due, jobs') := Scheduler.tick now (registry w) in
  put_world {| files := files w; registry := jobs' |};;
  for_each due (λ j,
    process_message self (j_contact j) (j_message j) (j_is_group j)).

(** [run_scheduler]; [wakes] are the clock readings at which the
    [while True] loop wakes up before [KeyboardInterrupt] stops it. *)
Definition run_scheduler (self : WhatsAppBot) (wakes : list Timestamp) : M unit :=
  logger_info "WhatsApp Bot scheduler started";;
  match config self with
  | None => logger_error "No configuration found. Exiting."
  | Some _ =>
      schedule_messages self;;
      logger_info "All messages scheduled successfully";;
      print "WhatsApp Bot is running... Press Ctrl+C to stop";;
      for_each wakes (run_pending self);;
      logger_info "WhatsApp Bot stopped by user";;
      print (String "010" "WhatsApp Bot stopped.")
  end.

End Bot.

(** ** The command line *)

(** [sep.join(l)]. *)
Fixpoint join (sep : string) (l : list string) : string :=
  match l with
  | [] => EmptyString
  | x :: l' =>
      match l' with
      | [] => x
      | _ :: _ => x +:+ sep +:+ join sep l'
      end
  end.

Section Cli.

Variable kit_raises : TransportCall → option string.
Variable at_rejects : string → option string.

(** [str(job)] for a job of the registry, as the [schedule] package prints
    it. *)
Variable job_str : Entry → string.

(** [send_test_message(phone, message)]; when [message] is not passed it is
    ["Test message from WhatsApp Bot"]. *)
Definition send_test_message (self : WhatsAppBot) (phone message : string) : M unit :=
  logger_info "Sending test message...";;
  send_text_message kit_raises self phone message "Test Contact".

Definition list_scheduled_jobs (self : WhatsAppBot) : M unit :=
  w ← get_world;
  let jobs := registry w in
  match jobs with
  | [] => print "No jobs scheduled."
  | _ :: _ =>
      print "Scheduled Jobs:";;
      for_each (zip (seq 1 (length jobs)) jobs) (λ ij,
        print (pretty ij.1 +:+ ". " +:+ job_str ij.2))
  end.

Definition print_usage : M unit :=
  print "Usage:";;
  print "  python whatsapp_automation.py run              - Start the scheduler";;
  print "  python whatsapp_automation.py test <phone>     - Send test message";;
  print "  python whatsapp_automation.py schedule         - List scheduled jobs".

(** [main()] with [sys.argv = argv]; [wakes] as for [run_scheduler]. *)
Definition main (argv : list string) (wakes : list Timestamp) : M unit :=
  bot ← init "config.yaml";
  if (1 <? length argv)%nat then
    let command := default "" (argv !! 1%nat) in
    if String.eqb command "test" && (2 <? length argv)%nat then
      let phone := default "" (argv !! 2%nat) in
      let message :=
        if (3 <? length argv)%nat then join " " (drop 3 argv) else "Test message" in
      send_test_message bot phone message
    else if String.eqb command "schedule" then list_scheduled_jobs bot
    else if String.eqb command "run" then run_scheduler kit_raises at_rejects bot wakes
    else print_usage
  else run_scheduler kit_raises at_rejects bot wakes.

End Cli.

(** ** The setup script *)

(** [create_directories()] of [setup.py]; [os.makedirs(directory)] leaves a
    directory at the path. *)
Definition create_directories : M unit :=
  for_each ["images"; "logs"] (λ directory,
    w ← get_world;
    if negb (bool_decide (is_Some (files w !! directory))) then
      put_world {| files := <[directory := OtherFile]> (files w);
                   registry := registry w |};;
      print ("✅ Created directory: " +:+ directory)
    else print ("📁 Directory already exists: " +:+ directory)).

(** ** Notions the properties are stated with *)

(** The characters a phone number loses. *)
Definition stripped (c : ascii) : bool :=
  Ascii.eqb c " " || Ascii.eqb c "-" || Ascii.eqb c "(" || Ascii.eqb c ")".

(** The characters of [s] that satisfy [keep], in their order. *)
Fixpoint str_filter (keep : ascii → bool) (s : string) : string :=
  match s with
  | EmptyString => EmptyString
  | String a s' => if keep a then String a (str_filter keep s') else str_filter keep s'
  end.

Fixpoint str_forallb (p : ascii → bool) (s : string) : bool :=
  match s with
  | EmptyString => true
  | String a s' => p a && str_forallb p s'
  end.

Definition is_digit (a : ascii) : bool :=
  let n := Z.of_N (N_of_ascii a) in (48 <=? n) && (n <=? 57).

Definition digit_value (a : ascii) : Z := Z.of_N (N_of_ascii a) - 48.

(** The text is ASCII: every byte is below 128.  On such text [PyStr.lower]
    is Python's [str.lower]. *)
Definition ascii_only (s : string) : bool :=
  str_forallb (λ a, Z.of_N (N_of_ascii a) <? 128) s.

(** Membership of an extension in a set of extensions when the case of
    letters is ignored on both sides. *)
Definition member_ignoring_case (ext : string) (allowed : list string) : Prop :=
  ∃ e, e ∈ allowed ∧ PyStr.lower e = PyStr.lower ext.

(** A time of day in the 24-hour form [HH:MM], from [00:00] to [23:59]. *)
Definition is_HHMM (t : string) : bool :=
  match t with
  | String a (String b (String ":" (String c (String d EmptyString)))) =>
      is_digit a && is_digit b && is_digit c && is_digit d
      && (10 * digit_value a + digit_value b <=? 23)
      && (10 * digit_value c + digit_value d <=? 59)
  | _ => false
  end.

(** The message entries of a configuration in configuration order, the
    individual targets before the group targets; the flag tells a group. *)
Definition entries_of (is_group : bool) (targets : list ContactInfo)
  : list (ContactInfo * MessageInfo * bool) :=
  targets ≫= λ c, (λ m, (c, m, is_group)) <$> default [] (c_messages c).

Definition message_entries (cfg : ConfigDoc) : list (ContactInfo * MessageInfo * bool) :=
  entries_of false (default [] (contacts cfg ≫= personal))
  ++ entries_of true (default [] (contacts cfg ≫= groups)).

(** The job of a message entry, not yet fired. *)
Definition pending_job (x : ContactInfo * MessageInfo * bool) : Entry :=
  {| e_job := {| j_at := default "" (m_time x.1.2); j_contact := x.1.1;
                 j_message := x.1.2; j_is_group := x.2 |};
     e_fired_on := None |}.

(** The time field of a message entry is present and not the empty string. *)
Definition has_time (m : MessageInfo) : bool := PyStr.truthy (default "" (m_time m)).

(** A valid configuration: every message entry carries a time in [HH:MM]. *)
Definition valid_configuration (cfg : ConfigDoc) : Prop :=
  ∀ x, x ∈ message_entries cfg → is_HHMM (default "" (m_time x.1.2)) = true.

(** The entries that carry a time, and the record the scheduler logs for
    each. *)
Definition timed_entries (cfg : ConfigDoc) : list (ContactInfo * MessageInfo * bool) :=
  filter (λ x, has_time x.1.2 = true) (message_entries cfg).

Definition scheduled_log (x : ContactInfo * MessageInfo * bool) : Event :=
  Log INFO ((if x.2 then "Scheduled message for group " else "Scheduled message for ")
            +:+ default "Unknown" (c_name x.1.1) +:+ " at " +:+ default "" (m_time x.1.2)).

(** One round of [schedule_messages] for the message entry [x]: the body of
    its inner loops, for the contact and the flag of the entry. *)
Definition schedule_entry (at_rejects : string → option string)
    (x : ContactInfo * MessageInfo * bool) : M unit :=
  let time_str := default "" (m_time x.1.2) in
  if PyStr.truthy time_str then
    every_day_at_do at_rejects time_str x.1.1 x.1.2 x.2;;
    emit (scheduled_log x)
  else mret tt.

(** The phone number as [validate_phone_number] returns it. *)
Definition normalized (phone : string) : string :=
  str_filter (λ c, negb (stripped c)) phone.

(** The records and the call of one send: the warning of
    [validate_phone_number] if any, the announcement, the transport
    operation, and the closing record that depends on whether it raised. *)
Definition send_trace (kit_raises : TransportCall → option string)
    (warn : list Event) (announce : string) (c : TransportCall)
    (done_msg : string) (failed_msg : string → string) : list Event :=
  warn ++ [Log INFO announce; Call c;
           match kit_raises c with
           | None => Log INFO done_msg
           | Some msg => Log ERROR (failed_msg msg)
           end].

Definition phone_warning (phone : string) : list Event :=
  if PyStr.startswith "+" (normalized phone) then []
  else [Log WARNING ("Phone number " +:+ normalized phone
                     +:+ " doesn't start with country code (+)")].

(** The world in which a directory has been made at [d] unless something
    exists there. *)
Definition ensure_dir (d : string) (w : World) : World :=
  if bool_decide (is_Some (files w !! d)) then w
  else {| files := <[d := OtherFile]> (files w); registry := registry w |}.

(** The world with further entries at the end of the registry. *)
Definition add_jobs (es : list Entry) (w : World) : World :=
  {| files := files w; registry := registry w ++ es |}.

(** ** Concrete inputs *)

Module Examples.

Definition quiet : TransportCall → option string := λ _, None.

Definition strict_at (t : string) : option string :=
  if is_HHMM t then None else Some ("Invalid time format: " +:+ t).

Definition bot : WhatsAppBot :=
  {| config_file := "config.yaml"; config := Some sample_config |}.

Definition ann : ContactInfo :=
  {| c_name := Some "Ann"; c_phone := Some "+15551230000"; c_messages := None |}.

Definition family : ContactInfo :=
  {| c_name := Some "Family Group"; c_phone := None; c_messages := None |}.

Definition hi : MessageInfo :=
  {| m_type := Some "text"; m_content := Some "Hi"; m_image_path := None;
     m_caption := None; m_time := Some "09:00" |}.

Definition picture : MessageInfo :=
  {| m_type := Some "image"; m_content := None; m_image_path := Some "pic.png";
     m_caption := Some "hello"; m_time := Some "18:00" |}.

Definition video : MessageInfo :=
  {| m_type := Some "video"; m_content := Some "clip.mp4"; m_image_path := None;
     m_caption := None; m_time := Some "12:00" |}.

Definition untimed : MessageInfo :=
  {| m_type := Some "text"; m_content := Some "whenever"; m_image_path := None;
     m_caption := None; m_time := None |}.

Definition empty_world : World := {| files := ∅; registry := [] |}.

Definition world_with_picture : World :=
  {| files := {[ "pic.png" := OtherFile ]}; registry := [] |}.

(** A configuration with one individual (two entries, one without a time)
    and one group (one entry with the empty time, one with a time). *)
Definition mixed_config : ConfigDoc :=
  {| contacts := Some
       {| personal := Some [
            {| c_name := Some "Ann"; c_phone := Some "+15551230000";
               c_messages := Some [untimed; hi] |} ];
          groups := Some [
            {| c_name := Some "Family Group"; c_phone := None;
               c_messages := Some [
                 {| m_type := Some "text"; m_content := Some "later";
                    m_image_path := None; m_caption := None; m_time := Some "" |};
                 picture ] |} ] |};
     settings := None |}.

Definition late : MessageInfo :=
  {| m_type := Some "text"; m_content := Some "late"; m_image_path := None;
     m_caption := None; m_time := Some "25:00" |}.

(** An individual with three entries, the second at a time that is not a
    time of day. *)
Definition ann_with_late : ContactInfo :=
  {| c_name := Some "Ann"; c_phone := Some "+15551230000";
     c_messages := Some [hi; late; picture] |}.

Definition late_config : ConfigDoc :=
  {| contacts := Some {| personal := Some [ann_with_late]; groups := None |};
     settings := None |}.

Definition late_bot : WhatsAppBot :=
  {| config_file := "config.yaml"; config := Some late_config |}.

Definition failing : TransportCall → option string := λ _, Some "browser closed".

Definition world_with_sample : World :=
  {| files := {[ "config.yaml" := YamlFile (Some sample_config) ]}; registry := [] |}.

Definition nine (date second : Z) : Timestamp :=
  {| ts_date := date; ts_hour := 9; ts_minute := 0; ts_second := second |}.

Definition hi_job : Entry :=
  {| e_job := {| j_at := "09:00"; j_contact := ann; j_message := hi; j_is_group := false |};
     e_fired_on := None |}.

End Examples.

(** ** Running computations *)

Ltac unfold_M :=
  unfold mbind, M_bind, mret, M_ret, mthrow, M_throw, try_except,
    logger_info, logger_warning, logger_error, print, emit,
    get_world, put_world, result, world_after, events in *.

(** ** Phone numbers *)

Lemma remove_str_filter c s :
  PyStr.remove c s = str_filter (λ a, negb (Ascii.eqb a c)) s.
Proof.
  induction s as [|a s IH]; simpl; [done|].
  rewrite IH. by destruct (Ascii.eqb a c).
Qed.

Lemma str_filter_twice p q s :
  str_filter p (str_filter q s) = str_filter (λ a, q a && p a) s.
Proof.
  induction s as [|a s IH]; simpl; [done|].
  destruct (q a); simpl; [|done].
  destruct (p a); by rewrite IH.
Qed.

Lemma str_filter_ext p q s :
  (∀ a, p a = q a) → str_filter p s = str_filter q s.
Proof.
  intros Hpq. induction s as [|a s IH]; simpl; [done|].
  by rewrite Hpq, IH.
Qed.

Lemma remove_chain phone :
  PyStr.remove ")" (PyStr.remove "(" (PyStr.remove "-" (PyStr.remove " " phone)))
  = str_filter (λ c, negb (stripped c)) phone.
Proof.
  rewrite !remove_str_filter, !str_filter_twice.
  apply str_filter_ext. intros a. unfold stripped.
  destruct (Ascii.eqb a " "), (Ascii.eqb a "-"), (Ascii.eqb a "("), (Ascii.eqb a ")"); done.
Qed.

Lemma validate_phone_number_result phone w :
  result (validate_phone_number phone w)
  = Ret (str_filter (λ c, negb (stripped c)) phone)
  ∧ world_after (validate_phone_number phone w) = w
  ∧ calls (events (validate_phone_number phone w)) = [].
Proof.
  unfold validate_phone_number. rewrite remove_chain.
  destruct (negb (PyStr.startswith "+" _)); unfold_M; done.
Qed.

Lemma str_filter_empty_iff p s :
  str_filter p s = EmptyString ↔ str_forallb (λ c, negb (p c)) s = true.
Proof.
  induction s as [|a s IH]; simpl; [done|].
  destruct (p a); simpl; [|done]. split; discriminate.
Qed.

Lemma str_forallb_ext p q s :
  (∀ a, p a = q a) → str_forallb p s = str_forallb q s.
Proof.
  intros Hpq. induction s as [|a s IH]; simpl; [done|].
  by rewrite Hpq, IH.
Qed.

(** C6: for every input string, [validate_phone_number] (the spec's
    [normalize_phone]) returns the input without its spaces, hyphens and
    parentheses: exactly the remaining characters, digits and any [+]
    included, in their original order, and nothing else is changed. *)
Theorem validate_phone_number_strips phone w :
  result (validate_phone_number phone w)
  = Ret (str_filter (λ c, negb (stripped c)) phone).
Proof. apply validate_phone_number_result. Qed.

(** C9, as amended: the normalized phone is the empty string exactly when
    every character of the phone field is a space, a hyphen or a
    parenthesis (the empty field included); any other phone stays
    non-empty. *)
Theorem validate_phone_number_empty_iff phone w :
  ∃ p, result (validate_phone_number phone w) = Ret p
       ∧ (p = EmptyString ↔ str_forallb stripped phone = true).
Proof.
  eexists. split; [apply validate_phone_number_result|].
  rewrite str_filter_empty_iff.
  rewrite (str_forallb_ext _ stripped); [done|].
  intros a. by destruct (stripped a).
Qed.

(** A phone field made of stripped characters only reaches the transport as
    the empty string. *)
Lemma blank_phone_normalizes_to_empty :
  let contact := {| c_name := Some "Ann"; c_phone := Some "( ) -"; c_messages := None |} in
  let message := {| m_type := Some "text"; m_content := Some "Hi"; m_image_path := None;
                    m_caption := None; m_time := Some "09:00" |} in
  let self := {| config_file := "config.yaml"; config := Some sample_config |} in
  let w := {| files := ∅; registry := [] |} in
  c_phone contact = Some "( ) -"
  ∧ result (validate_phone_number "( ) -" w) = Ret EmptyString
  ∧ calls (events (process_message (λ _, None) self contact message false w))
    = [sendwhatmsg_instantly "" "Hi" 20 true].
Proof. vm_compute. done. Qed.

(** ** Image eligibility *)

Lemma lower_char_idemp a : PyStr.lower_char (PyStr.lower_char a) = PyStr.lower_char a.
Proof. by destruct a as [[] [] [] [] [] [] [] []]. Qed.

Lemma lower_idemp s : PyStr.lower (PyStr.lower s) = PyStr.lower s.
Proof.
  induction s as [|a s IH]; simpl; [done|].
  by rewrite lower_char_idemp, IH.
Qed.

Lemma validate_image_path_result self path w :
  validate_image_path self path w
  = (Ret (bool_decide (is_Some (files w !! path))
          && bool_decide (PyStr.lower (OsPath.splitext path).2 ∈ supported_formats self)),
     w,
     if negb (bool_decide (is_Some (files w !! path)))
     then [Log ERROR ("Image file not found: " +:+ path)]
     else if negb (bool_decide (PyStr.lower (OsPath.splitext path).2
                                ∈ supported_formats self))
     then [Log ERROR ("Unsupported image format: "
                      +:+ PyStr.lower (OsPath.splitext path).2)]
     else []).
Proof.
  unfold validate_image_path. unfold_M.
  destruct (bool_decide (is_Some (files w !! path))); simpl; [|done].
  by destruct (bool_decide (_ ∈ _)).
Qed.

Lemma lower_member_ignoring_case ext allowed :
  PyStr.lower ext ∈ allowed → member_ignoring_case ext allowed.
Proof. intros Hin. exists (PyStr.lower ext). split; [done|apply lower_idemp]. Qed.

Lemma member_ignoring_case_lower ext allowed :
  Forall (λ e, PyStr.lower e = e) allowed →
  member_ignoring_case ext allowed → PyStr.lower ext ∈ allowed.
Proof.
  intros Hlow (e & Hin & Heq).
  rewrite Forall_forall in Hlow. rewrite <- Heq, (Hlow e Hin). done.
Qed.

(** C5, as amended: for a path whose extension is ASCII,
    [validate_image_path] (the spec's [is_sendable_image]) returns true if
    and only if the file exists and its extension, put in lower case, is a
    member of the allowed set as the set is written.  A true answer
    therefore implies membership when case is ignored, the answer is false
    for a path that does not exist and for an extension that is absent from
    the set whatever the case, and when the entries of the set are all ASCII
    and in lower case the answer is true exactly for an existing file whose
    extension is a member when case is ignored. *)
Theorem validate_image_path_true_iff self path w :
  ascii_only (OsPath.splitext path).2 = true →
  ∃ b, result (validate_image_path self path w) = Ret b
    ∧ (b = true ↔ is_Some (files w !! path)
                  ∧ PyStr.lower (OsPath.splitext path).2 ∈ supported_formats self)
    ∧ (files w !! path = None → b = false)
    ∧ (¬ member_ignoring_case (OsPath.splitext path).2 (supported_formats self) → b = false)
    ∧ (Forall (λ e, ascii_only e = true ∧ PyStr.lower e = e) (supported_formats self) →
       (b = true ↔ is_Some (files w !! path)
                    ∧ member_ignoring_case (OsPath.splitext path).2 (supported_formats self))).
Proof.
  intros _. eexists. split; [by rewrite validate_image_path_result|].
  assert (Hiff : ∀ P Q `{Decision P, Decision Q},
             bool_decide P && bool_decide Q = true ↔ P ∧ Q).
  { intros. rewrite andb_true_iff, !bool_decide_eq_true. done. }
  split; [apply Hiff|]. split; [|split].
  - intros Hnone. apply not_true_is_false. rewrite Hiff, Hnone.
    intros [[? ?] _]. done.
  - intros Hnot. apply not_true_is_false. rewrite Hiff.
    intros [_ Hin]. by apply Hnot, lower_member_ignoring_case.
  - intros Hlow. rewrite Hiff. split; intros [? ?]; split; try done.
    + by apply lower_member_ignoring_case.
    + apply member_ignoring_case_lower; [|done].
      eapply Forall_impl; [exact Hlow|]. by intros e [_ He].
Qed.

(** An allowed set written in upper case never matches: the file exists and
    its extension is a member when case is ignored, yet the answer is
    false. *)
Lemma uppercase_entry_not_matched :
  let self := {| config_file := "config.yaml";
                 config := Some {| contacts := None;
                                   settings := Some {| wait_time := None; close_tab := None;
                                                       image_formats := Some [".JPG"];
                                                       timezone := None |} |} |} in
  let w := {| files := {[ "photo.jpg" := OtherFile ]}; registry := [] |} in
  is_Some (files w !! "photo.jpg")
  ∧ member_ignoring_case (OsPath.splitext "photo.jpg").2 (supported_formats self)
  ∧ result (validate_image_path self "photo.jpg" w) = Ret false.
Proof.
  split; [|split].
  - by eexists.
  - exists ".JPG". split; [|done]. apply list_elem_of_here.
  - by vm_compute.
Qed.

Lemma validate_image_path_true_iff_witness :
  let self := {| config_file := "config.yaml"; config := Some sample_config |} in
  let w := {| files := {[ "a.JPG" := OtherFile ]}; registry := [] |} in
  result (validate_image_path self "a.JPG" w) = Ret true.
Proof.
  intros self w.
  destruct (validate_image_path_true_iff self "a.JPG" w eq_refl)
    as (b & Hr & _ & _ & _ & Hci).
  rewrite Hr. f_equal. apply Hci.
  - repeat constructor.
  - split; [by eexists|]. exists ".jpg". split; [|done]. apply list_elem_of_here.
Defined.

(** ** Dispatch *)

Section Dispatch.

Variable kit_raises : TransportCall → option string.
Variable self : WhatsAppBot.

(** C2: for every group target paired with an image message the dispatcher
    makes no transport call and reports a skip: it leaves one [WARNING]
    record, the source's wording of the reason "group image unsupported",
    and nothing else happens. *)
Theorem group_image_is_skipped contact message w :
  m_type message = Some "image" →
  process_message kit_raises self contact message true w
  = (Ret tt, w,
     [Log WARNING
        "Image sending to groups is limited. Consider sending to individual members."])
  ∧ calls (events (process_message kit_raises self contact message true w)) = []
  ∧ outcome (events (process_message kit_raises self contact message true w))
    = Some (Skipped
        "Image sending to groups is limited. Consider sending to individual members.").
Proof.
  intros Htype.
  assert (Hrun : process_message kit_raises self contact message true w
    = (Ret tt, w,
       [Log WARNING
          "Image sending to groups is limited. Consider sending to individual members."])).
  { unfold process_message. rewrite Htype. by unfold_M. }
  rewrite Hrun. done.
Qed.

Lemma send_image_message_rejected phone image_path caption contact_name w :
  result (validate_image_path self image_path w) = Ret false →
  send_image_message kit_raises self phone image_path caption contact_name w
  = (Ret tt, w, events (validate_image_path self image_path w)).
Proof.
  rewrite validate_image_path_result. unfold result, events. simpl. intros [= Hb].
  unfold send_image_message, try_except, mbind, M_bind.
  rewrite validate_image_path_result, Hb. simpl. by rewrite app_nil_r.
Qed.

Lemma send_image_message_accepted phone image_path caption contact_name w :
  result (validate_image_path self image_path w) = Ret true →
  calls (events (send_image_message kit_raises self phone image_path caption
                   contact_name w))
  = [sendwhats_image (str_filter (λ c, negb (stripped c)) phone) image_path
       (if PyStr.truthy caption then Some caption else None)
       (setting self wait_time 20) (setting self close_tab true)].
Proof.
  rewrite validate_image_path_result. unfold result, events. simpl. intros [= Hb].
  apply andb_true_iff in Hb as [Hex Hin].
  unfold send_image_message, try_except, mbind, M_bind.
  rewrite validate_image_path_result, Hex, Hin. simpl.
  unfold validate_phone_number. rewrite remove_chain.
  set (p := str_filter _ phone).
  destruct (negb (PyStr.startswith "+" p)), (PyStr.truthy caption);
    unfold_M; unfold kit; simpl;
    destruct (kit_raises _); done.
Qed.

(** C3: for every individual target paired with an image message, when
    [validate_image_path] answers false no transport call is made and the
    dispatch ends on an [ERROR] record (the outcome is a failure: the image
    is not eligible); when it answers true, [sendwhats_image] is called once
    for the normalized phone, with the caption when the caption is
    non-empty and without one otherwise. *)
Theorem individual_image_dispatch contact message w :
  m_type message = Some "image" →
  let phone := default "" (c_phone contact) in
  let image_path := default "" (m_image_path message) in
  let caption := default "" (m_caption message) in
  let run := process_message kit_raises self contact message false w in
  (result (validate_image_path self image_path w) = Ret false →
   calls (events run) = []
   ∧ outcome (events run)
     = Some (Failed
         (if bool_decide (is_Some (files w !! image_path))
          then "Unsupported image format: " +:+ PyStr.lower (OsPath.splitext image_path).2
          else "Image file not found: " +:+ image_path)))
  ∧ (result (validate_image_path self image_path w) = Ret true →
     ∃ phone', result (validate_phone_number phone w) = Ret phone'
       ∧ calls (events run)
         = [sendwhats_image phone' image_path
              (if PyStr.truthy caption then Some caption else None)
              (setting self wait_time 20) (setting self close_tab true)]).
Proof.
  intros Htype phone image_path caption run.
  assert (Hrun : events run
    = events (send_image_message kit_raises self phone image_path caption
                (default "Unknown" (c_name contact)) w)).
  { unfold run, process_message. rewrite Htype. simpl.
    unfold try_except.
    destruct (send_image_message _ _ _ _ _ _ w) as [[[[]|e] w1] ev] eqn:Hsend; [done|].
    exfalso. revert Hsend. unfold send_image_message, try_except.
    match goal with |- context [match ?m w with _ => _ end] =>
      destruct (m w) as [[[[]|e'] w2] ev2] end; [done|].
    unfold_M. done. }
  rewrite Hrun. split.
  - intros Hfalse. rewrite send_image_message_rejected by done.
    revert Hfalse. rewrite validate_image_path_result. unfold result, events. simpl.
    intros [= Hb].
    destruct (bool_decide (is_Some (files w !! image_path))); simpl in *; [|done].
    rewrite Hb. done.
  - intros Htrue. eexists. split; [apply validate_phone_number_result|].
    by apply send_image_message_accepted.
Qed.

(** C7, as amended: for every target, group or individual, and every
    message whose type is neither ["text"] nor ["image"], the dispatcher
    does nothing at all: no transport call, no log record, no exception, so
    no outcome is reported. *)
Theorem unrecognized_type_ignored contact message is_group w t :
  m_type message = Some t →
  t ≠ "text" → t ≠ "image" →
  process_message kit_raises self contact message is_group w = (Ret tt, w, [])
  ∧ outcome (events (process_message kit_raises self contact message is_group w)) = None.
Proof.
  intros Htype Htext Himage.
  assert (Hrun : process_message kit_raises self contact message is_group w = (Ret tt, w, [])).
  { unfold process_message. rewrite Htype. simpl.
    apply String.eqb_neq in Htext, Himage. rewrite Htext, Himage.
    by destruct is_group. }
  by rewrite Hrun.
Qed.

End Dispatch.

(** ** Building the job set *)

Lemma add_jobs_nil w : add_jobs [] w = w.
Proof. destruct w. unfold add_jobs. simpl. by rewrite app_nil_r. Qed.

Lemma add_jobs_app es1 es2 w : add_jobs es2 (add_jobs es1 w) = add_jobs (es1 ++ es2) w.
Proof. unfold add_jobs. simpl. by rewrite app_assoc. Qed.

Lemma bind_run (m k : M unit) w w1 w2 ev1 ev2 :
  m w = (Ret tt, w1, ev1) → k w1 = (Ret tt, w2, ev2) →
  (m;; k) w = (Ret tt, w2, ev1 ++ ev2).
Proof. intros Hm Hk. unfold mbind, M_bind. by rewrite Hm, Hk. Qed.

(** A loop whose every round appends jobs and events appends them all. *)
Lemma for_each_appends {A} (l : list A) (body : A → M unit)
    (js : A → list Entry) (evs : A → list Event) w :
  (∀ x w', x ∈ l → body x w' = (Ret tt, add_jobs (js x) w', evs x)) →
  for_each l body w = (Ret tt, add_jobs (l ≫= js) w, l ≫= evs).
Proof.
  revert w. induction l as [|x l IH]; intros w Hbody; simpl.
  - by rewrite add_jobs_nil.
  - rewrite (bind_run _ _ w (add_jobs (js x) w) (add_jobs (l ≫= js) (add_jobs (js x) w))
               (evs x) (l ≫= evs)).
    + by rewrite add_jobs_app.
    + apply Hbody, list_elem_of_here.
    + apply IH. intros y w' Hy. apply Hbody. by apply list_elem_of_further.
Qed.

Section Scheduling.

Variable at_rejects : string → option string.

Lemma every_day_at_do_accepted time_str contact message is_group w :
  at_rejects time_str = None →
  every_day_at_do at_rejects time_str contact message is_group w
  = (Ret tt,
     add_jobs [ {| e_job := {| j_at := time_str; j_contact := contact;
                               j_message := message; j_is_group := is_group |};
                   e_fired_on := None |} ] w,
     []).
Proof. intros Hok. unfold every_day_at_do. rewrite Hok. by unfold_M. Qed.

(** One contact's messages: the inner loop of [schedule_messages]. *)
Lemma schedule_contact c (g : bool) prefix w :
  prefix = (if g then "Scheduled message for group " else "Scheduled message for ") →
  (∀ m, m ∈ default [] (c_messages c) → has_time m = true →
        at_rejects (default "" (m_time m)) = None) →
  for_each (default [] (c_messages c)) (λ message,
    let time_str := default "" (m_time message) in
    if PyStr.truthy time_str then
      every_day_at_do at_rejects time_str c message g;;
      logger_info (prefix +:+ default "Unknown" (c_name c) +:+ " at " +:+ time_str)
    else mret tt) w
  = (Ret tt,
     add_jobs (pending_job <$> filter (λ x, has_time x.1.2 = true) (entries_of g [c])) w,
     scheduled_log <$> filter (λ x, has_time x.1.2 = true) (entries_of g [c])).
Proof.
  intros -> Hok. unfold entries_of. simpl. rewrite app_nil_r.
  generalize dependent (default [] (c_messages c)). intros messages Hok.
  revert w. induction messages as [|m messages IH]; intros w; simpl.
  - by rewrite add_jobs_nil.
  - rewrite filter_cons. simpl.
    specialize (IH (λ m' Hm', Hok m' (list_elem_of_further _ _ _ Hm'))).
    set (rest := filter _ (_ <$> messages)) in *.
    destruct (decide (has_time m = true)) as [Ht|Ht]; simpl.
    + assert (Ht' := Ht). unfold has_time in Ht'. rewrite Ht'.
      rewrite (bind_run _ _ w (add_jobs [pending_job (c, m, g)] w)
                 (add_jobs (pending_job <$> rest) (add_jobs [pending_job (c, m, g)] w))
                 [scheduled_log (c, m, g)] (scheduled_log <$> rest)).
      * by rewrite add_jobs_app.
      * rewrite (bind_run _ _ w (add_jobs [pending_job (c, m, g)] w)
                   (add_jobs [pending_job (c, m, g)] w) [] [scheduled_log (c, m, g)]).
        -- done.
        -- apply every_day_at_do_accepted, Hok; [apply list_elem_of_here|done].
        -- by unfold_M.
      * apply IH.
    + apply not_true_is_false in Ht. unfold has_time in Ht. rewrite Ht.
      rewrite (bind_run _ _ w w (add_jobs (pending_job <$> rest) w) []
                 (scheduled_log <$> rest)); [done|by unfold_M|apply IH].
Qed.

Lemma entries_of_elem c m g targets :
  c ∈ targets → m ∈ default [] (c_messages c) → (c, m, g) ∈ entries_of g targets.
Proof.
  intros Hc Hm. unfold entries_of. apply list_elem_of_bind.
  exists c. split; [|done]. apply list_elem_of_fmap. by exists m.
Qed.

Lemma entries_of_cons g c targets :
  entries_of g (c :: targets) = entries_of g [c] ++ entries_of g targets.
Proof. unfold entries_of. simpl. by rewrite app_nil_r. Qed.

Lemma bind_entries_of {B} (f : ContactInfo * MessageInfo * bool → B) g targets :
  targets ≫= (λ c, f <$> filter (λ x, has_time x.1.2 = true) (entries_of g [c]))
  = f <$> filter (λ x, has_time x.1.2 = true) (entries_of g targets).
Proof.
  induction targets as [|c targets IH]; [done|].
  rewrite entries_of_cons, filter_app, fmap_app, <- IH. done.
Qed.

(** All contacts of one kind: an outer loop of [schedule_messages]. *)
Lemma schedule_targets (g : bool) prefix targets w :
  prefix = (if g then "Scheduled message for group " else "Scheduled message for ") →
  (∀ x, x ∈ entries_of g targets → has_time x.1.2 = true →
        at_rejects (default "" (m_time x.1.2)) = None) →
  for_each targets (λ c,
    for_each (default [] (c_messages c)) (λ message,
      let time_str := default "" (m_time message) in
      if PyStr.truthy time_str then
        every_day_at_do at_rejects time_str c message g;;
        logger_info (prefix +:+ default "Unknown" (c_name c) +:+ " at " +:+ time_str)
      else mret tt)) w
  = (Ret tt,
     add_jobs (pending_job <$> filter (λ x, has_time x.1.2 = true) (entries_of g targets)) w,
     scheduled_log <$> filter (λ x, has_time x.1.2 = true) (entries_of g targets)).
Proof.
  intros Hprefix Hok.
  rewrite <- !bind_entries_of.
  apply (for_each_appends targets _
           (λ c, pending_job <$> filter (λ x, has_time x.1.2 = true) (entries_of g [c]))
           (λ c, scheduled_log <$> filter (λ x, has_time x.1.2 = true) (entries_of g [c]))).
  intros c w' Hc. apply schedule_contact; [done|].
  intros m Hm Ht. by apply (Hok (c, m, g)); [apply entries_of_elem|].
Qed.

(** What [schedule_messages] does when [schedule] accepts the time of every
    entry that has one: it returns, and for each such entry, in
    configuration order with the individual targets first, it appends one
    job to the registry and logs one record; the other entries leave no
    trace. *)
Lemma schedule_messages_run self cfg w :
  config self = Some cfg →
  (∀ x, x ∈ timed_entries cfg → at_rejects (default "" (m_time x.1.2)) = None) →
  schedule_messages at_rejects self w
  = (Ret tt, add_jobs (pending_job <$> timed_entries cfg) w,
     scheduled_log <$> timed_entries cfg).
Proof.
  intros Hcfg Hok. unfold schedule_messages. rewrite Hcfg.
  unfold timed_entries, message_entries in *.
  rewrite filter_app, !fmap_app, <- add_jobs_app.
  eapply bind_run.
  - apply schedule_targets; [done|]. intros x Hx Ht. apply Hok.
    rewrite filter_app, elem_of_app. left. by apply list_elem_of_filter.
  - apply schedule_targets; [done|]. intros x Hx Ht. apply Hok.
    rewrite filter_app, elem_of_app. right. by apply list_elem_of_filter.
Qed.

End Scheduling.

(** With the empty configuration nothing is scheduled. *)
Lemma schedule_messages_empty_config (at_rejects : string → option string) self w :
  config self = None →
  schedule_messages at_rejects self w
  = (Ret tt, w, [Log ERROR "No configuration loaded. Cannot schedule messages."]).
Proof. intros Hcfg. unfold schedule_messages. rewrite Hcfg. by unfold_M. Qed.

Lemma is_HHMM_truthy t : is_HHMM t = true → PyStr.truthy t = true.
Proof. by destruct t. Qed.

Lemma filter_all {A} (P : A → Prop) `{∀ x, Decision (P x)} (l : list A) :
  (∀ x, x ∈ l → P x) → filter P l = l.
Proof.
  induction l as [|x l IH]; intros Hall; [done|].
  rewrite filter_cons, decide_True by apply Hall, list_elem_of_here.
  rewrite IH; [done|]. intros y Hy. by apply Hall, list_elem_of_further.
Qed.

(** C4: for every valid configuration (every message entry carries a time
    in [HH:MM], which [schedule] accepts), [schedule_messages] registers
    exactly one job per message entry across all individual and group
    targets, in configuration order with the individual targets before the
    group targets; the number of jobs added equals the number of message
    entries. *)
Theorem schedule_messages_one_job_per_entry
    (at_rejects : string → option string) self cfg w :
  config self = Some cfg →
  valid_configuration cfg →
  (∀ t, is_HHMM t = true → at_rejects t = None) →
  let run := schedule_messages at_rejects self w in
  result run = Ret tt
  ∧ registry (world_after run) = registry w ++ (pending_job <$> message_entries cfg)
  ∧ length (registry (world_after run))
    = (length (registry w) + length (message_entries cfg))%nat.
Proof.
  intros Hcfg Hvalid Hat run.
  assert (Htimed : timed_entries cfg = message_entries cfg).
  { apply filter_all. intros x Hx. apply is_HHMM_truthy, Hvalid, Hx. }
  unfold run. rewrite (schedule_messages_run at_rejects self cfg w Hcfg).
  - rewrite Htimed. unfold result, world_after. simpl.
    split; [done|]. split; [done|]. by rewrite length_app, length_fmap.
  - intros x Hx. apply Hat, Hvalid. by rewrite <- Htimed.
Qed.

(** C10: a message entry whose time field is missing or is the empty string
    is silently skipped.  Whenever [schedule] accepts the times of the
    entries that do have one, [schedule_messages] returns without an error,
    the registry gains exactly the jobs of the entries that have a time, in
    order, every such entry is logged, and nothing is registered or logged
    for an entry without a time. *)
Theorem untimed_entries_are_skipped (at_rejects : string → option string) self cfg w :
  config self = Some cfg →
  (∀ x, x ∈ message_entries cfg → has_time x.1.2 = true →
        at_rejects (default "" (m_time x.1.2)) = None) →
  let run := schedule_messages at_rejects self w in
  result run = Ret tt
  ∧ registry (world_after run)
    = registry w ++ (pending_job <$> filter (λ x, has_time x.1.2 = true) (message_entries cfg))
  ∧ events run
    = scheduled_log <$> filter (λ x, has_time x.1.2 = true) (message_entries cfg)
  ∧ (∀ x, x ∈ message_entries cfg → has_time x.1.2 = false →
          x ∉ filter (λ x, has_time x.1.2 = true) (message_entries cfg)).
Proof.
  intros Hcfg Hat run.
  unfold run. rewrite (schedule_messages_run at_rejects self cfg w Hcfg).
  - unfold result, world_after, events. simpl. repeat (split; [done|]).
    intros x _ Hno [Hyes _]%list_elem_of_filter. congruence.
  - intros x [Ht Hx]%list_elem_of_filter. by apply Hat.
Qed.

(** ** A missing configuration file *)

Lemma init_missing_config cf w :
  files w !! cf = None →
  init cf w
  = (Ret {| config_file := cf; config := None |},
     {| files := <[cf := YamlFile (Some sample_config)]> (files w);
        registry := registry w |},
     [Log ERROR ("Configuration file " +:+ cf +:+ " not found");
      Log INFO ("Sample configuration created at " +:+ cf);
      Print ("Please edit " +:+ cf +:+ " with your contacts and messages");
      Log INFO "WhatsApp Bot initialized successfully"]).
Proof.
  intros Hnone. unfold init, load_config, create_sample_config. unfold_M.
  rewrite Hnone. done.
Qed.

(** C8: when the configuration file is absent, creating the bot writes the
    sample configuration to that path and leaves the bot with the empty
    configuration; [run_scheduler] then returns at once, without an error:
    it schedules no job and invokes no transport operation. *)
Theorem missing_config_schedules_nothing
    (kit_raises : TransportCall → option string) (at_rejects : string → option string)
    cf wakes w :
  files w !! cf = None →
  ∃ self w1,
    result (init cf w) = Ret self
    ∧ world_after (init cf w) = w1
    ∧ config self = None
    ∧ files w1 !! cf = Some (YamlFile (Some sample_config))
    ∧ registry w1 = registry w
    ∧ run_scheduler kit_raises at_rejects self wakes w1
      = (Ret tt, w1,
         [Log INFO "WhatsApp Bot scheduler started";
          Log ERROR "No configuration found. Exiting."]).
Proof.
  intros Hnone. rewrite (init_missing_config cf w Hnone).
  do 2 eexists. unfold result, world_after. simpl.
  split; [done|]. split; [done|]. split; [done|].
  split; [apply lookup_insert_eq|]. split; [done|].
  unfold run_scheduler. by unfold_M.
Qed.

(** ** At most once a day *)

Module SchedulerFacts.
Import Scheduler.

Lemma hhmm_same_minute t1 t2 : same_minute t1 t2 → hhmm t1 = hhmm t2.
Proof. intros (_ & Hh & Hm). unfold hhmm. by rewrite Hh, Hm. Qed.

Lemma hhmm_next_day t : hhmm (next_day t) = hhmm t.
Proof. done. Qed.

(** Once a tick has passed, no job is due for the rest of that minute. *)
Lemma not_due_after_mark t1 t2 e :
  same_minute t1 t2 → is_due t2 (mark t1 e) = false.
Proof.
  intros Hsame. assert (Hd : ts_date t1 = ts_date t2) by apply Hsame.
  apply hhmm_same_minute in Hsame.
  unfold mark. destruct (is_due t1 e) eqn:Hdue.
  - unfold is_due, fired_today. simpl. rewrite Hd.
    rewrite bool_decide_eq_true_2 by done. apply andb_false_r.
  - revert Hdue. unfold is_due, fired_today. by rewrite Hsame, Hd.
Qed.

Lemma mark_after_mark t1 t2 e :
  same_minute t1 t2 → mark t2 (mark t1 e) = mark t1 e.
Proof. intros Hsame. unfold mark at 1. by rewrite not_due_after_mark. Qed.

(** A job that fired on a date is due again at its time on the next date. *)
Lemma due_next_day t e :
  is_due t e = true → is_due (next_day t) (mark t e) = true.
Proof.
  intros Hdue. unfold mark. rewrite Hdue.
  apply andb_true_iff in Hdue as [Hat _].
  unfold is_due, fired_today. simpl. rewrite hhmm_next_day, Hat. simpl.
  apply negb_true_iff, bool_decide_eq_false. intros [= Heq]. lia.
Qed.

Lemma fires_after_tick t t' jobs i :
  fires t' (tick t jobs).2 i = from_option (λ e, is_due t' (mark t e)) false (jobs !! i).
Proof. unfold fires, tick. simpl. rewrite list_lookup_fmap. by destruct (jobs !! i). Qed.

Lemma no_job_due_after_tick t1 t2 jobs :
  same_minute t1 t2 → filter (λ e, is_due t2 e = true) (mark t1 <$> jobs) = [].
Proof.
  intros Hsame. induction jobs as [|e jobs IH]; [done|].
  rewrite fmap_cons, filter_cons, decide_False; [apply IH|].
  by rewrite not_due_after_mark.
Qed.

(** C1: after the scheduler has been evaluated at a clock reading, a second
    evaluation within the same minute of the same date returns no job and
    changes nothing, so over the two evaluations every job fires at most
    once; and a job that fired at the first evaluation fires again at the
    same time of day one date later. *)
Theorem tick_once_per_day (jobs : list Entry) (t1 t2 : Timestamp) :
  same_minute t1 t2 →
  let jobs1 := (tick t1 jobs).2 in
  let jobs2 := (tick t2 jobs1).2 in
  (tick t2 jobs1).1 = []
  ∧ jobs2 = jobs1
  ∧ ∀ i, fires t1 jobs i = true →
         fires t2 jobs1 i = false ∧ fires (next_day t1) jobs2 i = true.
Proof.
  intros Hsame jobs1 jobs2.
  assert (Hjobs2 : jobs2 = jobs1).
  { unfold jobs2, jobs1, tick. simpl. rewrite <- list_fmap_compose.
    apply list_fmap_ext. intros _ e _. simpl. by apply mark_after_mark. }
  split; [|split; [done|]].
  - unfold jobs1, tick. simpl. by rewrite no_job_due_after_tick.
  - intros i Hfired. rewrite Hjobs2. unfold jobs1. rewrite !fires_after_tick.
    unfold fires in Hfired. destruct (jobs !! i) as [e|]; simpl in *; [|done].
    split; [by apply not_due_after_mark|by apply due_next_day].
Qed.

End SchedulerFacts.

(** ** The run loop *)

Section RunLoop.

Variable kit_raises : TransportCall → option string.
Variable self : WhatsAppBot.

(** Dispatch catches every exception and leaves the world as it was. *)
Lemma send_group_message_total group_name message w :
  ∃ evs, send_group_message kit_raises self group_name message w = (Ret tt, w, evs).
Proof.
  unfold send_group_message, kit. unfold_M.
  destruct (kit_raises _); eexists; reflexivity.
Qed.

Lemma send_text_message_total phone message contact_name w :
  ∃ evs, send_text_message kit_raises self phone message contact_name w = (Ret tt, w, evs).
Proof.
  unfold send_text_message, validate_phone_number, kit. unfold_M.
  destruct (negb _); simpl; destruct (kit_raises _); eexists; reflexivity.
Qed.

Lemma send_image_message_total phone image_path caption contact_name w :
  ∃ evs, send_image_message kit_raises self phone image_path caption contact_name w
         = (Ret tt, w, evs).
Proof.
  unfold send_image_message, try_except, mbind, M_bind.
  rewrite validate_image_path_result.
  destruct (_ && _); simpl; [|eexists; reflexivity].
  unfold validate_phone_number, kit. unfold_M.
  destruct (negb (PyStr.startswith _ _)), (PyStr.truthy caption); simpl;
    destruct (kit_raises _); eexists; reflexivity.
Qed.

Lemma process_message_total contact message is_group w :
  ∃ evs, process_message kit_raises self contact message is_group w = (Ret tt, w, evs).
Proof.
  unfold process_message, try_except.
  destruct is_group; destruct (String.eqb _ "text").
  - destruct (send_group_message_total (default "Unknown Group" (c_name contact))
                (default "" (m_content message)) w) as [evs ->]. eauto.
  - destruct (String.eqb _ "image"); unfold_M; eauto.
  - destruct (send_text_message_total (default "" (c_phone contact))
                (default "" (m_content message))
                (default "Unknown" (c_name contact)) w) as [evs ->]. eauto.
  - destruct (String.eqb _ "image"); [|unfold_M; eauto].
    destruct (send_image_message_total (default "" (c_phone contact))
                (default "" (m_image_path message)) (default "" (m_caption message))
                (default "Unknown" (c_name contact)) w) as [evs ->]. eauto.
Qed.

Lemma for_each_process_total (due : list Job) w :
  ∃ evs, for_each due (λ j, process_message kit_raises self (j_contact j) (j_message j)
                              (j_is_group j)) w = (Ret tt, w, evs).
Proof.
  induction due as [|j due [evs IH]]; simpl; [by eexists|].
  destruct (process_message_total (j_contact j) (j_message j) (j_is_group j) w) as [ev1 H1].
  eexists. eapply bind_run; [exact H1|exact IH].
Qed.

Lemma run_pending_world now w :
  world_after (run_pending kit_raises self now w)
  = {| files := files w; registry := (Scheduler.tick now (registry w)).2 |}
  ∧ result (run_pending kit_raises self now w) = Ret tt.
Proof.
  unfold run_pending. unfold Scheduler.tick.
  unfold mbind at 1. unfold M_bind, get_world. 
  unfold mbind, M_bind, put_world.
  match goal with |- context [for_each ?d ?f ?w'] =>
    destruct (for_each_process_total d w') as [evs ->] end.
  done.
Qed.

(** A second [run_pending] within the same minute of the same date runs no
    job: it emits nothing and changes nothing. *)
Lemma run_pending_again_is_silent t1 t2 w :
  Scheduler.same_minute t1 t2 →
  let w1 := world_after (run_pending kit_raises self t1 w) in
  run_pending kit_raises self t2 w1 = (Ret tt, w1, []).
Proof.
  intros Hsame w1. unfold w1. destruct (run_pending_world t1 w) as [-> _].
  unfold run_pending. unfold_M. simpl.
  rewrite (SchedulerFacts.no_job_due_after_tick t1 t2 _ Hsame).
  rewrite <- list_fmap_compose.
  rewrite (list_fmap_ext (Scheduler.mark t2 ∘ Scheduler.mark t1) (Scheduler.mark t1));
    [done|].
  intros _ e _. simpl. by apply SchedulerFacts.mark_after_mark.
Qed.
End RunLoop.

(** ** The properties at concrete inputs *)


Import Examples.

Lemma group_image_is_skipped_witness :
  m_type picture = Some "image"
  ∧ calls (events (process_message quiet bot family picture true empty_world)) = []
  ∧ outcome (events (process_message quiet bot family picture true empty_world))
    = Some (Skipped
        "Image sending to groups is limited. Consider sending to individual members.").
Proof.
  split; [reflexivity|].
  apply (group_image_is_skipped quiet bot family picture empty_world). reflexivity.
Defined.

Lemma individual_image_dispatch_witness :
  calls (events (process_message quiet bot ann picture false empty_world)) = []
  ∧ outcome (events (process_message quiet bot ann picture false empty_world))
    = Some (Failed "Image file not found: pic.png")
  ∧ calls (events (process_message quiet bot ann picture false world_with_picture))
    = [sendwhats_image "+15551230000" "pic.png" (Some "hello") 20 true].
Proof.
  pose proof (individual_image_dispatch quiet bot ann picture empty_world eq_refl) as H1.
  pose proof (individual_image_dispatch quiet bot ann picture world_with_picture eq_refl)
    as H2.
  cbv zeta in H1, H2.
  destruct H1 as [[Hcalls Hout] _]; [by vm_compute|].
  destruct H2 as [_ (phone' & Hphone & Hsent)]; [by vm_compute|].
  vm_compute in Hphone. injection Hphone as <-.
  split; [exact Hcalls|]. split; [exact Hout|exact Hsent].
Defined.

(** A message of an unknown type to an individual: nothing is reported, let
    alone a failure. *)
Lemma unknown_type_reports_nothing :
  process_message quiet bot ann video false empty_world = (Ret tt, empty_world, [])
  ∧ outcome (events (process_message quiet bot ann video false empty_world))
    ≠ Some (Failed "unhandled combination").
Proof. split; [by vm_compute|]. vm_compute. discriminate. Qed.

Lemma unrecognized_type_ignored_witness :
  process_message quiet bot family video true empty_world = (Ret tt, empty_world, [])
  ∧ outcome (events (process_message quiet bot family video true empty_world)) = None.
Proof.
  apply (unrecognized_type_ignored quiet bot family video true empty_world "video");
    [reflexivity|discriminate|discriminate].
Defined.

Lemma sample_config_valid : valid_configuration sample_config.
Proof.
  unfold valid_configuration. apply Forall_forall.
  repeat constructor.
Defined.

Lemma schedule_messages_one_job_per_entry_witness :
  let run := schedule_messages strict_at bot empty_world in
  result run = Ret tt
  ∧ registry (world_after run) = pending_job <$> message_entries sample_config
  ∧ length (registry (world_after run)) = 3%nat.
Proof.
  apply (schedule_messages_one_job_per_entry strict_at bot sample_config empty_world).
  - reflexivity.
  - exact sample_config_valid.
  - intros t Ht. unfold strict_at. rewrite Ht. reflexivity.
Defined.

Lemma untimed_entries_are_skipped_witness :
  let run := schedule_messages strict_at
               {| config_file := "config.yaml"; config := Some mixed_config |}
               empty_world in
  result run = Ret tt
  ∧ (λ e, j_message (e_job e)) <$> registry (world_after run) = [hi; picture]
  ∧ events run = [Log INFO "Scheduled message for Ann at 09:00";
                  Log INFO "Scheduled message for group Family Group at 18:00"].
Proof.
  pose proof (untimed_entries_are_skipped strict_at
                {| config_file := "config.yaml"; config := Some mixed_config |}
                mixed_config empty_world eq_refl) as H.
  cbv zeta in H. destruct H as (Hres & Hreg & Hev & _).
  - apply (proj1 (Forall_forall
      (λ x, has_time x.1.2 = true → strict_at (default "" (m_time x.1.2)) = None) _)).
    repeat (constructor; [by vm_compute|]). constructor.
  - cbv zeta. rewrite Hres, Hreg, Hev. by vm_compute.
Defined.

Lemma missing_config_schedules_nothing_witness :
  files empty_world !! "config.yaml" = None
  ∧ ∃ self w1,
      result (init "config.yaml" empty_world) = Ret self
      ∧ world_after (init "config.yaml" empty_world) = w1
      ∧ config self = None
      ∧ files w1 !! "config.yaml" = Some (YamlFile (Some sample_config))
      ∧ registry w1 = registry empty_world
      ∧ run_scheduler quiet strict_at self [nine 3 12; nine 3 42] w1
        = (Ret tt, w1,
           [Log INFO "WhatsApp Bot scheduler started";
            Log ERROR "No configuration found. Exiting."]).
Proof.
  split; [reflexivity|].
  apply (missing_config_schedules_nothing quiet strict_at "config.yaml"
           [nine 3 12; nine 3 42] empty_world).
  reflexivity.
Defined.

Lemma tick_once_per_day_witness :
  Scheduler.same_minute (nine 3 12) (nine 3 42)
  ∧ (Scheduler.tick (nine 3 12) [hi_job]).1 = [e_job hi_job]
  ∧ (Scheduler.tick (nine 3 42) (Scheduler.tick (nine 3 12) [hi_job]).2).1 = []
  ∧ Scheduler.fires (nine 4 12)
      (Scheduler.tick (nine 3 42) (Scheduler.tick (nine 3 12) [hi_job]).2).2 0 = true.
Proof.
  assert (Hsame : Scheduler.same_minute (nine 3 12) (nine 3 42)) by (repeat split).
  pose proof (SchedulerFacts.tick_once_per_day [hi_job] (nine 3 12) (nine 3 42) Hsame) as H.
  cbv zeta in H. destruct H as (Hnone & _ & Hfires).
  split; [exact Hsame|]. split; [reflexivity|]. split; [exact Hnone|].
  apply (Hfires 0%nat). reflexivity.
Defined.

(** ** Scenarios *)

(** One individual, one text message at 09:00: the loop wakes twice at 09:00
    on day 3 and once at 09:00 on day 4; the message goes out once on each
    day. *)
Example ann_scenario :
  let self := {| config_file := "config.yaml";
                 config := Some {| contacts := Some
                   {| personal := Some [
                        {| c_name := Some "Ann"; c_phone := Some "+15551230000";
                           c_messages := Some [hi] |} ];
                      groups := None |};
                   settings := None |} |} in
  calls (events (run_scheduler quiet strict_at self [nine 3 12; nine 3 42; nine 4 5]
                   empty_world))
  = [sendwhatmsg_instantly "+15551230000" "Hi" 20 true;
     sendwhatmsg_instantly "+15551230000" "Hi" 20 true].
Proof. by vm_compute. Qed.

(** A failing transport is logged and does not stop the dispatch. *)
Example failing_transport_is_logged :
  process_message (λ _, Some "browser closed") bot ann hi false empty_world
  = (Ret tt, empty_world,
     [Log INFO "Sending text message to Ann (+15551230000)";
      Call (sendwhatmsg_instantly "+15551230000" "Hi" 20 true);
      Log ERROR "Failed to send text message to Ann: browser closed"]).
Proof. by vm_compute. Qed.

(** A time string [schedule] refuses stops [schedule_messages] with the
    error, after the earlier entries have been registered. *)
Example refused_time_raises :
  let self := {| config_file := "config.yaml";
                 config := Some {| contacts := Some
                   {| personal := Some [
                        {| c_name := Some "Ann"; c_phone := Some "+15551230000";
                           c_messages := Some [
                             hi;
                             {| m_type := Some "text"; m_content := Some "late";
                                m_image_path := None; m_caption := None;
                                m_time := Some "25:00" |};
                             picture ] |} ];
                      groups := None |};
                   settings := None |} |} in
  let run := schedule_messages strict_at self empty_world in
  result run = Raise (ScheduleValueError "Invalid time format: 25:00")
  ∧ (λ e, j_message (e_job e)) <$> registry (world_after run) = [hi].
Proof. by vm_compute. Qed.

(** ** Further properties of dispatch *)

Section DispatchTraces.

Variable kit_raises : TransportCall → option string.
Variable self : WhatsAppBot.

Lemma validate_phone_number_run phone w :
  validate_phone_number phone w = (Ret (normalized phone), w, phone_warning phone).
Proof.
  unfold validate_phone_number, phone_warning. rewrite remove_chain.
  fold (normalized phone).
  by destruct (PyStr.startswith "+" (normalized phone)).
Qed.

Lemma send_text_message_run phone message contact_name w :
  send_text_message kit_raises self phone message contact_name w
  = (Ret tt, w,
     send_trace kit_raises (phone_warning phone)
       ("Sending text message to " +:+ contact_name +:+ " (" +:+ normalized phone +:+ ")")
       (sendwhatmsg_instantly (normalized phone) message
          (setting self wait_time 20) (setting self close_tab true))
       ("Text message sent successfully to " +:+ contact_name)
       (λ e, "Failed to send text message to " +:+ contact_name +:+ ": " +:+ e)).
Proof.
  unfold send_text_message, try_except, mbind, M_bind.
  rewrite validate_phone_number_run. unfold kit, send_trace. unfold_M.
  destruct (kit_raises _); simpl; by rewrite <- ?app_assoc.
Qed.

Lemma send_group_message_run group_name message w :
  send_group_message kit_raises self group_name message w
  = (Ret tt, w,
     send_trace kit_raises []
       ("Sending text message to group: " +:+ group_name)
       (sendwhatmsg_to_group_instantly group_name message
          (setting self wait_time 20) (setting self close_tab true))
       ("Text message sent successfully to group: " +:+ group_name)
       (λ e, "Failed to send message to group " +:+ group_name +:+ ": " +:+ e)).
Proof.
  unfold send_group_message, kit, send_trace. unfold_M.
  destruct (kit_raises _); done.
Qed.

Lemma send_image_message_run phone image_path caption contact_name w :
  send_image_message kit_raises self phone image_path caption contact_name w
  = (Ret tt, w,
     if bool_decide (is_Some (files w !! image_path))
        && bool_decide (PyStr.lower (OsPath.splitext image_path).2
                        ∈ supported_formats self)
     then send_trace kit_raises (phone_warning phone)
            ("Sending image to " +:+ contact_name +:+ " (" +:+ normalized phone +:+ ")")
            (sendwhats_image (normalized phone) image_path
               (if PyStr.truthy caption then Some caption else None)
               (setting self wait_time 20) (setting self close_tab true))
            ((if PyStr.truthy caption then "Image with caption sent successfully to "
              else "Image sent successfully to ") +:+ contact_name)
            (λ e, "Failed to send image to " +:+ contact_name +:+ ": " +:+ e)
     else events (validate_image_path self image_path w)).
Proof.
  unfold send_image_message, try_except. unfold mbind at 1. unfold M_bind.
  rewrite validate_image_path_result.
  destruct (bool_decide (is_Some _)) eqn:Hex; simpl; [|done].
  destruct (bool_decide (_ ∈ _)) eqn:Hin; simpl; [|done].
  unfold mbind, M_bind. rewrite validate_phone_number_run.
  unfold kit, send_trace. unfold_M.
  destruct (PyStr.truthy caption); simpl; destruct (kit_raises _); simpl;
    by rewrite <- ?app_assoc.
Qed.

Lemma calls_app evs1 evs2 : calls (evs1 ++ evs2) = calls evs1 ++ calls evs2.
Proof. unfold calls. apply omap_app. Qed.

Lemma log_records_app evs1 evs2 :
  log_records (evs1 ++ evs2) = log_records evs1 ++ log_records evs2.
Proof. unfold log_records. apply omap_app. Qed.

Lemma calls_phone_warning phone : calls (phone_warning phone) = [].
Proof. unfold phone_warning. by destruct (PyStr.startswith _ _). Qed.

Lemma calls_send_trace warn announce c done_msg failed_msg :
  calls warn = [] →
  calls (send_trace kit_raises warn announce c done_msg failed_msg) = [c].
Proof.
  intros Hwarn. unfold send_trace. rewrite calls_app, Hwarn.
  by destruct (kit_raises c).
Qed.

Lemma outcome_send_trace warn announce c done_msg failed_msg :
  outcome (send_trace kit_raises warn announce c done_msg failed_msg)
  = match kit_raises c with
    | None => Some Sent
    | Some msg => Some (Failed (failed_msg msg))
    end.
Proof.
  unfold outcome, send_trace. rewrite log_records_app.
  destruct (kit_raises c); simpl;
    match goal with |- context [last (?l ++ [?a; ?b])] =>
      change (l ++ [a; b]) with (l ++ [a] ++ [b]); rewrite app_assoc, last_snoc
    end; done.
Qed.

(** The traces a dispatch can leave: nothing, the group-image warning, the
    error record of an image that is not eligible, or the trace of one
    send. *)
Lemma process_message_cases contact message is_group w :
  ∃ evs, process_message kit_raises self contact message is_group w = (Ret tt, w, evs)
    ∧ (evs = []
       ∨ (∃ msg, evs = [Log WARNING msg])
       ∨ (∃ msg, evs = [Log ERROR msg])
       ∨ (∃ warn announce c done_msg failed_msg,
            calls warn = []
            ∧ evs = send_trace kit_raises warn announce c done_msg failed_msg)).
Proof.
  unfold process_message, try_except.
  destruct is_group; destruct (String.eqb _ "text").
  - rewrite send_group_message_run. eexists. split; [done|].
    do 3 right. by repeat eexists.
  - destruct (String.eqb _ "image"); unfold_M; eexists; (split; [done|]); eauto.
  - rewrite send_text_message_run. eexists. split; [done|].
    do 3 right. repeat eexists. apply calls_phone_warning.
  - destruct (String.eqb _ "image"); [|unfold_M; eauto].
    rewrite send_image_message_run. eexists. split; [done|].
    destruct (_ && _) eqn:Hok.
    + do 3 right. repeat eexists. apply calls_phone_warning.
    + rewrite validate_image_path_result. unfold events. simpl.
      apply andb_false_iff in Hok as [->| Hin]; simpl; [eauto|].
      destruct (bool_decide (is_Some _)); simpl; [|eauto].
      rewrite Hin. simpl. eauto.
Qed.

(** X1: whether the transport operation returns or raises,
    [process_message] returns normally to its caller, and it invokes at
    most one transport operation. *)
Theorem process_message_contained contact message is_group w :
  let run := process_message kit_raises self contact message is_group w in
  result run = Ret tt ∧ (length (calls (events run)) ≤ 1)%nat.
Proof.
  intros run. unfold run.
  destruct (process_message_cases contact message is_group w)
    as (evs & Hrun & [->|[[msg ->]|[[msg ->]|(warn & a & c & d & f & Hwarn & ->)]]]);
    rewrite Hrun; unfold result, events; simpl; (split; [done|]); try lia.
  rewrite calls_send_trace by done. simpl. lia.
Qed.

(** X2: the log of a dispatch ends on a success record exactly when one
    transport operation was invoked and it did not raise. *)
Theorem sent_iff_one_successful_call contact message is_group w :
  let evs := events (process_message kit_raises self contact message is_group w) in
  outcome evs = Some Sent ↔ ∃ c, calls evs = [c] ∧ kit_raises c = None.
Proof.
  destruct (process_message_cases contact message is_group w)
    as (evs & Hrun & [->|[[msg ->]|[[msg ->]|(warn & a & c & d & f & Hwarn & ->)]]]);
    rewrite Hrun; unfold events; simpl.
  1-3: split; [done|]; by intros (c & ? & _).
  rewrite outcome_send_trace, calls_send_trace by done.
  split.
  - destruct (kit_raises c) eqn:Hc; [done|]. intros _. by exists c.
  - intros (c' & [= <-] & ->). done.
Qed.

End DispatchTraces.

Section DispatchRouting.

Variable kit_raises : TransportCall → option string.
Variable self : WhatsAppBot.

(** X3: a message to an individual whose type is ["text"], or that has no
    type at all, invokes [sendwhatmsg_instantly] exactly once: for the
    normalized phone (the empty string when the contact has no phone), with
    the content (empty when missing) and the configured waiting time and
    tab closing (20 and true when not configured).  The log ends on success
    when the operation returns and on the failure record, carrying the text
    of the exception, when it raises. *)
Theorem individual_text_dispatch contact message w :
  default "text" (m_type message) = "text" →
  let c := sendwhatmsg_instantly (normalized (default "" (c_phone contact)))
             (default "" (m_content message))
             (setting self wait_time 20) (setting self close_tab true) in
  let evs := events (process_message kit_raises self contact message false w) in
  calls evs = [c]
  ∧ outcome evs
    = match kit_raises c with
      | None => Some Sent
      | Some msg =>
          Some (Failed ("Failed to send text message to "
                        +:+ default "Unknown" (c_name contact) +:+ ": " +:+ msg))
      end.
Proof.
  intros Htype c evs. unfold evs, process_message, try_except.
  rewrite Htype, String.eqb_refl. cbv beta iota zeta.
  rewrite send_text_message_run. unfold events. cbn [snd].
  rewrite calls_send_trace by apply calls_phone_warning.
  by rewrite outcome_send_trace.
Qed.

(** X4: a message to a group whose type is ["text"], or that has no type,
    invokes [sendwhatmsg_to_group_instantly] exactly once, with the group's
    name as it is written (["Unknown Group"] when missing) and the content;
    no phone number is involved and nothing is normalized. *)
Theorem group_text_dispatch contact message w :
  default "text" (m_type message) = "text" →
  let c := sendwhatmsg_to_group_instantly (default "Unknown Group" (c_name contact))
             (default "" (m_content message))
             (setting self wait_time 20) (setting self close_tab true) in
  let evs := events (process_message kit_raises self contact message true w) in
  calls evs = [c]
  ∧ outcome evs
    = match kit_raises c with
      | None => Some Sent
      | Some msg =>
          Some (Failed ("Failed to send message to group "
                        +:+ default "Unknown Group" (c_name contact) +:+ ": " +:+ msg))
      end.
Proof.
  intros Htype c evs. unfold evs, process_message, try_except.
  rewrite Htype, String.eqb_refl. cbv beta iota zeta.
  rewrite send_group_message_run. unfold events. cbn [snd].
  rewrite calls_send_trace by done.
  by rewrite outcome_send_trace.
Qed.

End DispatchRouting.

(** X5: normalizing a phone number that is already normalized changes
    nothing: [validate_phone_number] applied to its own result returns it
    again. *)
Theorem validate_phone_number_idempotent phone w w' p :
  result (validate_phone_number phone w) = Ret p →
  result (validate_phone_number p w') = Ret p.
Proof.
  rewrite !validate_phone_number_run. unfold result. simpl. intros [= <-].
  f_equal. unfold normalized. rewrite str_filter_twice.
  apply str_filter_ext. intros a. by destruct (stripped a).
Qed.

(** ** Further properties of image eligibility *)

Lemma rfind_from_spec c s i acc :
  PyStr.rfind_from c s i acc = acc
  ∨ (i ≤ PyStr.rfind_from c s i acc
     ∧ String.get (Z.to_nat (PyStr.rfind_from c s i acc - i)) s = Some c).
Proof.
  revert i acc. induction s as [|a s IH]; intros i acc; simpl; [by left|].
  destruct (IH (i + 1) (if Ascii.eqb a c then i else acc)) as [Hacc|[Hle Hget]].
  - rewrite Hacc. destruct (Ascii.eqb a c) eqn:Hac; [|by left].
    right. apply Ascii.eqb_eq in Hac as ->. rewrite Z.sub_diag. split; [lia|done].
  - right. split; [lia|].
    replace (Z.to_nat (PyStr.rfind_from c s (i + 1) (if Ascii.eqb a c then i else acc) - i))
      with (S (Z.to_nat (PyStr.rfind_from c s (i + 1)
                           (if Ascii.eqb a c then i else acc) - (i + 1)))) by lia.
    done.
Qed.

Lemma rfind_spec c s :
  PyStr.rfind c s = -1
  ∨ (0 ≤ PyStr.rfind c s ∧ String.get (Z.to_nat (PyStr.rfind c s)) s = Some c).
Proof.
  unfold PyStr.rfind. destruct (rfind_from_spec c s 0 (-1)) as [H|[Hle Hget]]; [by left|].
  right. split; [done|]. by rewrite Z.sub_0_r in Hget.
Qed.

Lemma drop_get k s c :
  String.get k s = Some c → PyStr.drop k s = String c (PyStr.drop (S k) s).
Proof.
  revert s. induction k as [|k IH]; intros [|a s]; simpl; try done.
  - by intros [= ->].
  - intros Hget. rewrite (IH s Hget). done.
Qed.

Lemma take_drop k s : PyStr.take k s +:+ PyStr.drop k s = s.
Proof.
  revert s. induction k as [|k IH]; intros [|a s]; try reflexivity.
  change (String a (PyStr.take k s +:+ PyStr.drop k s) = String a s).
  by rewrite IH.
Qed.

(** What [os.path.splitext] returns: the two parts make up the path, and
    the extension is empty or begins with the dot. *)
Lemma splitext_spec p :
  (OsPath.splitext p).1 +:+ (OsPath.splitext p).2 = p
  ∧ ((OsPath.splitext p).2 = EmptyString
     ∨ ∃ s, (OsPath.splitext p).2 = String "." s).
Proof.
  unfold OsPath.splitext.
  destruct (_ && _) eqn:Hcond; simpl; [|split; [|by left]].
  - split; [apply take_drop|]. right.
    apply andb_true_iff in Hcond as [Hgt _]. apply Z.gtb_lt in Hgt.
    destruct (rfind_spec "." p) as [Hnone|[_ Hget]].
    + destruct (rfind_spec "/" p) as [Hs|[Hs _]]; lia.
    + rewrite (drop_get _ _ _ Hget). by eexists.
  - clear Hcond. induction p as [|a p IH]; [done|].
    change (String a (p +:+ EmptyString) = String a p). by rewrite IH.
Qed.

(** X6: the extensions of the allowed set must be written with their dot.
    When no entry of the set is empty or begins with a dot (as in
    [image_formats: ['jpg', 'png']]), [validate_image_path] answers false
    for every path, existing or not. *)
Theorem dotless_formats_reject_everything self path w :
  Forall (λ e, e ≠ EmptyString ∧ PyStr.startswith "." e = false) (supported_formats self) →
  result (validate_image_path self path w) = Ret false.
Proof.
  intros Hall. rewrite validate_image_path_result. unfold result. simpl. f_equal.
  apply andb_false_iff. right. apply bool_decide_eq_false. intros Hin.
  rewrite Forall_forall in Hall. destruct (Hall _ Hin) as [Hne Hdot].
  destruct (splitext_spec path) as [_ [Hext|[s Hext]]]; rewrite Hext in *; done.
Qed.

(** X7: the case of the letters of a path's extension does not matter: two
    existing paths whose extensions differ only in case get the same
    answer. *)
Theorem validate_image_path_ignores_path_case self path1 path2 w :
  is_Some (files w !! path1) → is_Some (files w !! path2) →
  PyStr.lower (OsPath.splitext path1).2 = PyStr.lower (OsPath.splitext path2).2 →
  result (validate_image_path self path1 w) = result (validate_image_path self path2 w).
Proof.
  intros H1 H2 Hext. rewrite !validate_image_path_result. unfold result. simpl.
  rewrite Hext.
  by rewrite (bool_decide_eq_true_2 _ H1), (bool_decide_eq_true_2 _ H2).
Qed.

(** ** Further properties of loading the configuration *)

Lemma init_existing_config cf w f :
  files w !! cf = Some f →
  init cf w
  = match f with
    | YamlFile doc =>
        (Ret {| config_file := cf; config := doc |}, w,
         [Log INFO ("Configuration loaded from " +:+ cf);
          Log INFO "WhatsApp Bot initialized successfully"])
    | BadYamlFile err =>
        (Ret {| config_file := cf; config := None |}, w,
         [Log ERROR ("Error parsing YAML configuration: " +:+ err);
          Log INFO "WhatsApp Bot initialized successfully"])
    | OtherFile => (Raise (ReadError cf), w, [])
    end.
Proof.
  intros Hf. unfold init, load_config. unfold_M. rewrite Hf. by destruct f.
Qed.

(** X8: the log file [whatsapp_bot.log] apart, to which the logging handler
    appends, creating the bot changes a path only when the configuration
    file is missing, and then only that path: an existing configuration
    file, well-formed or not, is never overwritten, every other path keeps
    its content, and the job registry is not touched. *)
Theorem init_writes_only_missing_config cf w p :
  registry (world_after (init cf w)) = registry w
  ∧ (p ≠ "whatsapp_bot.log" →
     p ≠ cf ∨ is_Some (files w !! cf) →
     files (world_after (init cf w)) !! p = files w !! p).
Proof.
  destruct (files w !! cf) as [f|] eqn:Hf.
  - rewrite (init_existing_config cf w f Hf). by destruct f.
  - rewrite (init_missing_config cf w Hf). unfold world_after. simpl.
    split; [done|]. intros _ [Hne|[f Hsome]]; [|done].
    by rewrite lookup_insert_ne.
Qed.

(** X9: a configuration file that is malformed, or that parses to the empty
    document, is left as it is (no sample is written over it); the bot
    gets the empty configuration and [run_scheduler] returns at once without
    scheduling a job or invoking the transport. *)
Theorem unusable_config_schedules_nothing
    (kit_raises : TransportCall → option string) (at_rejects : string → option string)
    cf err wakes w :
  files w !! cf = Some (BadYamlFile err) ∨ files w !! cf = Some (YamlFile None) →
  result (init cf w) = Ret {| config_file := cf; config := None |}
  ∧ world_after (init cf w) = w
  ∧ run_scheduler kit_raises at_rejects {| config_file := cf; config := None |} wakes w
    = (Ret tt, w,
       [Log INFO "WhatsApp Bot scheduler started";
        Log ERROR "No configuration found. Exiting."]).
Proof.
  intros [Hf|Hf]; rewrite (init_existing_config cf w _ Hf);
    (split; [done|]); (split; [done|]); unfold run_scheduler; by unfold_M.
Qed.

(** ** Further properties of scheduling *)

Lemma bind_ret_l (k : M unit) w : (mret tt;; k) w = k w.
Proof. unfold_M. by destruct (k w) as [[r w'] ev]. Qed.

Lemma bind_assoc (a b c : M unit) w : ((a;; b);; c) w = (a;; (b;; c)) w.
Proof.
  unfold mbind, M_bind.
  destruct (a w) as [[[[]|e] w1] ev1]; [|done].
  destruct (b w1) as [[[[]|e] w2] ev2]; [|done].
  destruct (c w2) as [[r w3] ev3]. by rewrite app_assoc.
Qed.

Lemma bind_ext (a a' b b' : M unit) w :
  a w = a' w → (∀ w', b w' = b' w') → (a;; b) w = (a';; b') w.
Proof. intros Ha Hb. unfold mbind, M_bind. rewrite Ha. by destruct (a' w) as [[[[]|e] w1] ev1]; [rewrite Hb|]. Qed.

Lemma for_each_ext {A} (l : list A) (body body' : A → M unit) w :
  (∀ x w', body x w' = body' x w') → for_each l body w = for_each l body' w.
Proof.
  intros Hbody. revert w. induction l as [|x l IH]; intros w; [done|].
  simpl. apply bind_ext; [apply Hbody|apply IH].
Qed.

Lemma for_each_app {A} (l1 l2 : list A) (body : A → M unit) w :
  for_each (l1 ++ l2) body w = (for_each l1 body;; for_each l2 body) w.
Proof.
  revert w. induction l1 as [|x l1 IH]; intros w; simpl.
  - by rewrite bind_ret_l.
  - rewrite bind_assoc. apply bind_ext; [done|apply IH].
Qed.

Lemma for_each_fmap {A B} (f : A → B) (l : list A) (body : B → M unit) w :
  for_each (f <$> l) body w = for_each l (λ x, body (f x)) w.
Proof.
  revert w. induction l as [|x l IH]; intros w; [done|].
  simpl. apply bind_ext; [done|apply IH].
Qed.

Lemma for_each_bind {A B} (f : A → list B) (l : list A) (body : B → M unit) w :
  for_each (l ≫= f) body w = for_each l (λ x, for_each (f x) body) w.
Proof.
  revert w. induction l as [|x l IH]; intros w; [done|].
  simpl. rewrite for_each_app. apply bind_ext; [done|apply IH].
Qed.

Section SchedulingPass.

Variable at_rejects : string → option string.

(** [schedule_messages] is one pass over the message entries, in
    configuration order. *)
Lemma schedule_messages_flat self cfg w :
  config self = Some cfg →
  schedule_messages at_rejects self w
  = for_each (message_entries cfg) (schedule_entry at_rejects) w.
Proof.
  intros Hcfg. unfold schedule_messages, message_entries. rewrite Hcfg.
  rewrite for_each_app. apply bind_ext; [|intros w'];
    unfold entries_of; rewrite for_each_bind; apply for_each_ext; intros c w'';
    rewrite for_each_fmap; apply for_each_ext; intros m w3; reflexivity.
Qed.

Lemma schedule_entry_accepted x w :
  (has_time x.1.2 = true → at_rejects (default "" (m_time x.1.2)) = None) →
  schedule_entry at_rejects x w
  = (Ret tt,
     add_jobs (pending_job <$> filter (λ x, has_time x.1.2 = true) [x]) w,
     scheduled_log <$> filter (λ x, has_time x.1.2 = true) [x]).
Proof.
  intros Hok. unfold schedule_entry. rewrite filter_cons, filter_nil.
  destruct (decide (has_time x.1.2 = true)) as [Ht|Ht].
  - assert (Ht' := Ht). unfold has_time in Ht'. rewrite Ht'.
    rewrite (bind_run _ _ w (add_jobs [pending_job x] w) (add_jobs [pending_job x] w)
               [] [scheduled_log x]); [done| |done].
    apply every_day_at_do_accepted. auto.
  - apply not_true_is_false in Ht. unfold has_time in Ht. rewrite Ht.
    simpl. by rewrite add_jobs_nil.
Qed.

Lemma bind_filter_singleton {A B} (P : A → Prop) `{∀ x, Decision (P x)}
    (f : A → B) (l : list A) :
  l ≫= (λ x, f <$> filter P [x]) = f <$> filter P l.
Proof.
  induction l as [|x l IH]; [done|].
  rewrite bind_cons, IH, (filter_cons _ x l), (filter_cons _ x []), filter_nil.
  by destruct (decide (P x)).
Qed.

Lemma schedule_entries_accepted l w :
  (∀ x, x ∈ l → has_time x.1.2 = true → at_rejects (default "" (m_time x.1.2)) = None) →
  for_each l (schedule_entry at_rejects) w
  = (Ret tt,
     add_jobs (pending_job <$> filter (λ x, has_time x.1.2 = true) l) w,
     scheduled_log <$> filter (λ x, has_time x.1.2 = true) l).
Proof.
  intros Hok.
  rewrite (for_each_appends l _
             (λ x, pending_job <$> filter (λ x, has_time x.1.2 = true) [x])
             (λ x, scheduled_log <$> filter (λ x, has_time x.1.2 = true) [x])).
  - by rewrite !bind_filter_singleton.
  - intros x w' Hx. apply schedule_entry_accepted. by apply Hok.
Qed.

Lemma schedule_entry_refused x msg w :
  has_time x.1.2 = true → at_rejects (default "" (m_time x.1.2)) = Some msg →
  schedule_entry at_rejects x w = (Raise (ScheduleValueError msg), w, []).
Proof.
  intros Ht Hno. unfold schedule_entry. unfold has_time in Ht. rewrite Ht.
  unfold every_day_at_do. rewrite Hno. by unfold_M.
Qed.

(** The run of [schedule_messages] up to the first entry whose time
    [schedule] refuses. *)
Lemma schedule_messages_refused self cfg pre x post msg w :
  config self = Some cfg →
  message_entries cfg = pre ++ x :: post →
  (∀ y, y ∈ pre → has_time y.1.2 = true → at_rejects (default "" (m_time y.1.2)) = None) →
  has_time x.1.2 = true → at_rejects (default "" (m_time x.1.2)) = Some msg →
  schedule_messages at_rejects self w
  = (Raise (ScheduleValueError msg),
     add_jobs (pending_job <$> filter (λ x, has_time x.1.2 = true) pre) w,
     scheduled_log <$> filter (λ x, has_time x.1.2 = true) pre).
Proof.
  intros Hcfg Hsplit Hpre Ht Hno.
  rewrite (schedule_messages_flat self cfg w Hcfg), Hsplit, for_each_app.
  unfold mbind, M_bind. rewrite (schedule_entries_accepted pre w Hpre). simpl.
  unfold mbind, M_bind. rewrite (schedule_entry_refused x msg _ Ht Hno).
  by rewrite app_nil_r.
Qed.

End SchedulingPass.

Lemma bind_raise (m k : M unit) w e w1 ev :
  m w = (Raise e, w1, ev) → (m;; k) w = (Raise e, w1, ev).
Proof. intros Hm. unfold mbind, M_bind. by rewrite Hm. Qed.

Lemma bind_emit e (k : M unit) w r w' ev :
  k w = (r, w', ev) → (emit e;; k) w = (r, w', e :: ev).
Proof. intros Hk. unfold mbind, M_bind, emit. by rewrite Hk. Qed.

Lemma calls_scheduled_log l : calls (scheduled_log <$> l) = [].
Proof. induction l as [|x l IH]; [done|]. rewrite fmap_cons. exact IH. Qed.

(** X11: when [schedule] refuses the time string of an entry,
    [schedule_messages] raises that [ScheduleValueError] at the first such
    entry in configuration order: the entries before it that have a time
    stay registered, and neither the refused entry nor any later one is
    registered. *)
Theorem refused_time_stops_scheduling
    (at_rejects : string → option string) self cfg pre x post msg w :
  config self = Some cfg →
  message_entries cfg = pre ++ x :: post →
  (∀ y, y ∈ pre → has_time y.1.2 = true → at_rejects (default "" (m_time y.1.2)) = None) →
  has_time x.1.2 = true → at_rejects (default "" (m_time x.1.2)) = Some msg →
  let run := schedule_messages at_rejects self w in
  result run = Raise (ScheduleValueError msg)
  ∧ registry (world_after run)
    = registry w ++ (pending_job <$> filter (λ x, has_time x.1.2 = true) pre).
Proof.
  intros Hcfg Hsplit Hpre Ht Hno run. unfold run.
  by rewrite (schedule_messages_refused at_rejects self cfg pre x post msg w).
Qed.

(** X12: a time string that [schedule] refuses stops [run_scheduler] before
    its loop starts: the error is raised to the caller, whatever the clock
    readings would have been, and no transport operation is invoked, not
    even for the entries that were scheduled before the refused one. *)
Theorem refused_time_aborts_run
    (kit_raises : TransportCall → option string) (at_rejects : string → option string)
    self cfg pre x post msg wakes w :
  config self = Some cfg →
  message_entries cfg = pre ++ x :: post →
  (∀ y, y ∈ pre → has_time y.1.2 = true → at_rejects (default "" (m_time y.1.2)) = None) →
  has_time x.1.2 = true → at_rejects (default "" (m_time x.1.2)) = Some msg →
  let run := run_scheduler kit_raises at_rejects self wakes w in
  result run = Raise (ScheduleValueError msg)
  ∧ calls (events run) = [].
Proof.
  intros Hcfg Hsplit Hpre Ht Hno run.
  assert (Hrun : run
    = (Raise (ScheduleValueError msg),
       add_jobs (pending_job <$> filter (λ x, has_time x.1.2 = true) pre) w,
       Log INFO "WhatsApp Bot scheduler started"
       :: (scheduled_log <$> filter (λ x, has_time x.1.2 = true) pre))).
  { unfold run, run_scheduler. rewrite Hcfg.
    apply (bind_emit (Log INFO "WhatsApp Bot scheduler started")), bind_raise.
    by apply (schedule_messages_refused at_rejects self cfg pre x post msg w). }
  rewrite Hrun. unfold result, events. simpl. split; [done|].
  apply calls_scheduled_log.
Qed.

Section RunLoopSurvives.

Variable kit_raises : TransportCall → option string.
Variable self : WhatsAppBot.

Lemma run_pending_run now w :
  ∃ evs, run_pending kit_raises self now w
         = (Ret tt, {| files := files w;
                       registry := (Scheduler.tick now (registry w)).2 |}, evs).
Proof.
  destruct (run_pending_world kit_raises self now w) as [Hw Hr].
  destruct (run_pending kit_raises self now w) as [[r w'] evs].
  unfold world_after, result in *. simpl in *. subst. by eexists.
Qed.

Lemma run_loop_run wakes w :
  ∃ w' evs, for_each wakes (run_pending kit_raises self) w = (Ret tt, w', evs)
            ∧ files w' = files w.
Proof.
  revert w. induction wakes as [|now wakes IH]; intros w; simpl.
  - by exists w, [].
  - destruct (run_pending_run now w) as [ev1 H1].
    destruct (IH {| files := files w;
                    registry := (Scheduler.tick now (registry w)).2 |})
      as (w' & ev2 & H2 & Hfiles).
    exists w', (ev1 ++ ev2). split; [|done].
    eapply bind_run; [exact H1|exact H2].
Qed.

(** X13: once every time string has been accepted, a transport operation
    that raises cannot stop the run loop: whichever operations return or
    raise, and for every sequence of clock readings, [run_scheduler] goes
    through all its wake-ups and returns normally when it is interrupted,
    its last output being the line that the bot has stopped. *)
Theorem run_scheduler_survives_transport (at_rejects : string → option string)
    cfg wakes w :
  config self = Some cfg →
  (∀ x, x ∈ timed_entries cfg → at_rejects (default "" (m_time x.1.2)) = None) →
  let run := run_scheduler kit_raises at_rejects self wakes w in
  result run = Ret tt
  ∧ last (events run) = Some (Print (String "010" "WhatsApp Bot stopped.")).
Proof.
  intros Hcfg Hok run.
  destruct (run_loop_run wakes (add_jobs (pending_job <$> timed_entries cfg) w))
    as (w' & evs & Hloop & Hfiles).
  assert (Hrun : run
    = (Ret tt, w',
       Log INFO "WhatsApp Bot scheduler started"
       :: ((scheduled_log <$> timed_entries cfg)
           ++ Log INFO "All messages scheduled successfully"
           :: Print "WhatsApp Bot is running... Press Ctrl+C to stop"
           :: (evs ++ [Log INFO "WhatsApp Bot stopped by user";
                       Print (String "010" "WhatsApp Bot stopped.")])))).
  { unfold run, run_scheduler. rewrite Hcfg.
    apply (bind_emit (Log INFO "WhatsApp Bot scheduler started")).
    eapply bind_run; [by apply schedule_messages_run|].
    apply (bind_emit (Log INFO "All messages scheduled successfully")).
    apply (bind_emit (Print "WhatsApp Bot is running... Press Ctrl+C to stop")).
    eapply bind_run; [exact Hloop|].
    by apply (bind_emit (Log INFO "WhatsApp Bot stopped by user")). }
  rewrite Hrun. unfold result, world_after, events. simpl.
  split; [done|].
  match goal with |- last ?L = Some ?e =>
    replace L with
      ((Log INFO "WhatsApp Bot scheduler started"
        :: (scheduled_log <$> timed_entries cfg)
        ++ Log INFO "All messages scheduled successfully"
        :: Print "WhatsApp Bot is running... Press Ctrl+C to stop"
        :: evs ++ [Log INFO "WhatsApp Bot stopped by user"]) ++ [e])
  end.
  - apply last_snoc.
  - simpl. rewrite <- !app_assoc. simpl. rewrite <- !app_assoc. done.
Qed.

End RunLoopSurvives.

(** ** Properties of the command line *)

Lemma bind_ret {A B} (m : M A) (k : A → M B) w a w1 ev1 r w2 ev2 :
  m w = (Ret a, w1, ev1) → k a w1 = (r, w2, ev2) →
  (m ≫= k) w = (r, w2, ev1 ++ ev2).
Proof. intros Hm Hk. unfold mbind, M_bind. by rewrite Hm, Hk. Qed.

Lemma for_each_print {A} (l : list A) (f : A → string) w :
  for_each l (λ x, print (f x)) w = (Ret tt, w, (λ x, Print (f x)) <$> l).
Proof.
  induction l as [|x l IH]; [done|]. simpl.
  by apply (bind_emit (Print (f x))).
Qed.

Lemma fmap_zip_seq {A B} (g : nat → A → B) (l : list A) k :
  (λ ij, g ij.1 ij.2) <$> zip (seq k (length l)) l = imap (λ i, g (k + i)%nat) l.
Proof.
  revert g k. induction l as [|x l IH]; intros g k; [done|].
  change (zip (seq k (length (x :: l))) (x :: l))
    with ((k, x) :: zip (seq (S k) (length l)) l).
  rewrite fmap_cons, imap_cons, (IH g (S k)). simpl.
  rewrite Nat.add_0_r. f_equal.
  apply imap_ext. intros i y _. simpl. f_equal. lia.
Qed.

Section CliFacts.

Variable kit_raises : TransportCall → option string.
Variable at_rejects : string → option string.
Variable job_str : Entry → string.

(** X14: [list_scheduled_jobs] prints ["No jobs scheduled."] when the
    registry is empty, and otherwise a heading followed by one line per
    registered job, numbered from 1 in registry order; it changes nothing
    and invokes no transport operation. *)
Theorem list_scheduled_jobs_output self w :
  list_scheduled_jobs job_str self w
  = (Ret tt, w,
     match registry w with
     | [] => [Print "No jobs scheduled."]
     | _ :: _ =>
         Print "Scheduled Jobs:"
         :: imap (λ i e, Print (pretty (S i) +:+ ". " +:+ job_str e)) (registry w)
     end).
Proof.
  unfold list_scheduled_jobs.
  apply (bind_ret get_world _ w w w []); [done|].
  destruct (registry w) as [|e jobs]; [done|].
  apply (bind_emit (Print "Scheduled Jobs:")).
  rewrite (for_each_print _ (λ ij, pretty ij.1 +:+ ". " +:+ job_str ij.2)).
  f_equal.
  by rewrite (fmap_zip_seq (λ i e, Print (pretty i +:+ ". " +:+ job_str e))
                (e :: jobs) 1).
Qed.

Lemma main_after_init argv wakes w bot w1 ev0 :
  init "config.yaml" w = (Ret bot, w1, ev0) →
  main kit_raises at_rejects job_str argv wakes w
  = (let '(r, w2, ev) :=
       (if (1 <? length argv)%nat then
          let command := default "" (argv !! 1%nat) in
          if String.eqb command "test" && (2 <? length argv)%nat then
            send_test_message kit_raises bot (default "" (argv !! 2%nat))
              (if (3 <? length argv)%nat then join " " (drop 3 argv) else "Test message")
          else if String.eqb command "schedule" then list_scheduled_jobs job_str bot
          else if String.eqb command "run"
               then run_scheduler kit_raises at_rejects bot wakes
          else print_usage
        else run_scheduler kit_raises at_rejects bot wakes) w1 in
     (r, w2, ev0 ++ ev)).
Proof. intros Hinit. unfold main. unfold mbind at 1. unfold M_bind. by rewrite Hinit. Qed.

Lemma init_returns w :
  files w !! "config.yaml" ≠ Some OtherFile →
  ∃ bot w1 ev0, init "config.yaml" w = (Ret bot, w1, ev0)
                ∧ registry w1 = registry w ∧ calls ev0 = [].
Proof.
  intros Hfile. destruct (files w !! "config.yaml") as [f|] eqn:Hf.
  - rewrite (init_existing_config _ w f Hf). destruct f; [| |done]; by repeat eexists.
  - rewrite (init_missing_config _ w Hf). by repeat eexists.
Qed.

(** X15: the [schedule] command of a fresh process, whose registry is
    empty, never lists a job, whatever the configuration holds: [main] only
    creates the bot, and jobs are registered by [run_scheduler] alone.  It
    prints ["No jobs scheduled."], registers nothing and invokes no
    transport operation. *)
Theorem schedule_command_lists_nothing prog rest wakes w :
  registry w = [] →
  files w !! "config.yaml" ≠ Some OtherFile →
  let run := main kit_raises at_rejects job_str (prog :: "schedule" :: rest) wakes w in
  result run = Ret tt
  ∧ last (events run) = Some (Print "No jobs scheduled.")
  ∧ calls (events run) = []
  ∧ registry (world_after run) = [].
Proof.
  intros Hreg Hfile run.
  destruct (init_returns w Hfile) as (bot & w1 & ev0 & Hinit & Hreg1 & Hcalls).
  unfold run. rewrite (main_after_init _ wakes w bot w1 ev0 Hinit).
  simpl. rewrite list_scheduled_jobs_output.
  rewrite Hreg1, Hreg. unfold result, events, world_after. simpl.
  split; [done|]. split; [apply last_snoc|]. split; [|congruence].
  by rewrite calls_app, Hcalls.
Qed.

End CliFacts.

Section CliCommands.

Variable kit_raises : TransportCall → option string.
Variable at_rejects : string → option string.
Variable job_str : Entry → string.

Lemma print_usage_run w :
  print_usage w
  = (Ret tt, w,
     [Print "Usage:";
      Print "  python whatsapp_automation.py run              - Start the scheduler";
      Print "  python whatsapp_automation.py test <phone>     - Send test message";
      Print "  python whatsapp_automation.py schedule         - List scheduled jobs"]).
Proof. done. Qed.

Lemma send_test_message_run self phone message w :
  send_test_message kit_raises self phone message w
  = (Ret tt, w,
     Log INFO "Sending test message..."
     :: send_trace kit_raises (phone_warning phone)
          ("Sending text message to Test Contact (" +:+ normalized phone +:+ ")")
          (sendwhatmsg_instantly (normalized phone) message
             (setting self wait_time 20) (setting self close_tab true))
          "Text message sent successfully to Test Contact"
          (λ e, "Failed to send text message to Test Contact: " +:+ e)).
Proof.
  unfold send_test_message.
  apply (bind_emit (Log INFO "Sending test message...")).
  by rewrite send_text_message_run.
Qed.

(** X16: a command that [main] does not know, and the [test] command given
    without a phone number, only print the four usage lines: nothing is
    sent and no job is registered. *)
Theorem unknown_command_prints_usage prog command rest wakes w :
  command ≠ "schedule" → command ≠ "run" →
  command ≠ "test" ∨ rest = [] →
  files w !! "config.yaml" ≠ Some OtherFile →
  let run := main kit_raises at_rejects job_str (prog :: command :: rest) wakes w in
  events run = events (init "config.yaml" w) ++ events (print_usage w)
  ∧ result run = Ret tt
  ∧ calls (events run) = []
  ∧ registry (world_after run) = registry w.
Proof.
  intros Hs Hr Ht Hfile run.
  destruct (init_returns w Hfile) as (bot & w1 & ev0 & Hinit & Hreg1 & Hcalls).
  assert (Hrun : run
    = (Ret tt, w1, ev0 ++ events (print_usage w))).
  { unfold run. rewrite (main_after_init _ _ _ _ wakes w bot w1 ev0 Hinit).
    apply String.eqb_neq in Hs, Hr.
    assert (Htest : String.eqb command "test" && (2 <? length (prog :: command :: rest))%nat
                    = false).
    { destruct Ht as [Ht| ->]; [|apply andb_false_r].
      apply String.eqb_neq in Ht. by rewrite Ht. }
    cbn [length Nat.ltb Nat.leb lookup list_lookup from_option id] in *.
    rewrite Htest, Hs, Hr. done. }
  rewrite Hrun, Hinit. unfold events, result, world_after. simpl.
  split; [done|]. split; [done|]. split; [|done].
  by rewrite calls_app, Hcalls.
Qed.

(** X17: unless [config.yaml] is a file without any document,
    [test <phone> [words...]] sends one text message at once, without the
    scheduler: [sendwhatmsg_instantly] is invoked exactly once, for the
    normalized phone, with the words joined by single spaces, or with
    ["Test message"] when no word is given, and with the waiting time and
    tab closing of the loaded configuration. *)
Theorem test_command_sends_once prog phone words wakes w bot w1 ev0 :
  files w !! "config.yaml" ≠ Some (YamlFile None) →
  init "config.yaml" w = (Ret bot, w1, ev0) →
  let run := main kit_raises at_rejects job_str (prog :: "test" :: phone :: words) wakes w in
  result run = Ret tt
  ∧ calls (events run)
    = [sendwhatmsg_instantly (normalized phone)
         (match words with [] => "Test message" | _ :: _ => join " " words end)
         (setting bot wait_time 20) (setting bot close_tab true)]
  ∧ registry (world_after run) = registry w.
Proof.
  intros _ Hinit run.
  assert (Hcalls : calls ev0 = [] ∧ registry w1 = registry w).
  { destruct (files w !! "config.yaml") as [f|] eqn:Hf.
    - rewrite (init_existing_config _ w f Hf) in Hinit. destruct f; by simplify_eq.
    - rewrite (init_missing_config _ w Hf) in Hinit. by simplify_eq. }
  destruct Hcalls as [Hcalls Hreg].
  unfold run. rewrite (main_after_init _ _ _ _ wakes w bot w1 ev0 Hinit).
  cbn [length Nat.ltb Nat.leb lookup list_lookup from_option id String.eqb
       Ascii.eqb Bool.eqb andb drop].
  rewrite send_test_message_run. unfold result, events, world_after. simpl.
  split; [done|]. split; [|done].
  rewrite calls_app, Hcalls. simpl.
  rewrite calls_send_trace by apply calls_phone_warning.
  by destruct words.
Qed.

(** X18: when the configuration file is missing, every command of [main],
    with any arguments, first writes the sample configuration to
    [config.yaml]; the invocation then returns normally, with the empty
    configuration, and registers no job. *)
Theorem any_command_creates_sample argv wakes w :
  files w !! "config.yaml" = None →
  let run := main kit_raises at_rejects job_str argv wakes w in
  result run = Ret tt
  ∧ files (world_after run) = <["config.yaml" := YamlFile (Some sample_config)]> (files w)
  ∧ registry (world_after run) = registry w.
Proof.
  intros Hnone run. unfold run.
  rewrite (main_after_init _ _ _ _ wakes w _ _ _ (init_missing_config _ w Hnone)).
  set (w1 := {| files := _; registry := _ |}).
  set (bot := {| config_file := _; config := None |}).
  assert (Hrunsched : run_scheduler kit_raises at_rejects bot wakes w1
    = (Ret tt, w1, [Log INFO "WhatsApp Bot scheduler started";
                    Log ERROR "No configuration found. Exiting."])) by done.
  destruct (1 <? length argv)%nat; [|by rewrite Hrunsched].
  cbv zeta.
  match goal with |- context [if ?b then send_test_message _ _ _ _ else _] =>
    destruct b end; [by rewrite send_test_message_run|].
  destruct (String.eqb _ "schedule"); [by rewrite list_scheduled_jobs_output|].
  destruct (String.eqb _ "run"); [by rewrite Hrunsched|].
  by rewrite print_usage_run.
Qed.

End CliCommands.

(** X19: [schedule_messages] adds to the registry and never looks at what
    is already there: called twice on the same configuration it registers
    every job twice, the second batch after the first. *)
Theorem schedule_messages_twice_doubles (at_rejects : string → option string) self cfg w :
  config self = Some cfg →
  (∀ x, x ∈ timed_entries cfg → at_rejects (default "" (m_time x.1.2)) = None) →
  let w1 := world_after (schedule_messages at_rejects self w) in
  let w2 := world_after (schedule_messages at_rejects self w1) in
  registry w2
  = registry w ++ (pending_job <$> timed_entries cfg) ++ (pending_job <$> timed_entries cfg).
Proof.
  intros Hcfg Hok w1 w2. unfold w2, w1.
  rewrite !(schedule_messages_run at_rejects self cfg _ Hcfg Hok).
  unfold world_after. simpl. by rewrite app_assoc.
Qed.

(** ** The setup script *)

Lemma create_directory_step directory w :
  (w' ← get_world;
   if negb (bool_decide (is_Some (files w' !! directory))) then
     put_world {| files := <[directory := OtherFile]> (files w');
                  registry := registry w' |};;
     print ("✅ Created directory: " +:+ directory)
   else print ("📁 Directory already exists: " +:+ directory)) w
  = (Ret tt, ensure_dir directory w,
     [Print ((if bool_decide (is_Some (files w !! directory))
              then "📁 Directory already exists: " else "✅ Created directory: ")
             +:+ directory)]).
Proof. unfold ensure_dir. unfold_M. by destruct (bool_decide _). Qed.

Lemma create_directories_run w :
  create_directories w
  = (Ret tt, ensure_dir "logs" (ensure_dir "images" w),
     [Print ((if bool_decide (is_Some (files w !! "images"))
              then "📁 Directory already exists: " else "✅ Created directory: ")
             +:+ "images");
      Print ((if bool_decide (is_Some (files (ensure_dir "images" w) !! "logs"))
              then "📁 Directory already exists: " else "✅ Created directory: ")
             +:+ "logs")]).
Proof.
  unfold create_directories, for_each.
  erewrite bind_run; cycle 1.
  { apply create_directory_step. }
  { erewrite bind_run; cycle 1.
    { apply create_directory_step. }
    { reflexivity. }
    reflexivity. }
  reflexivity.
Qed.

Lemma ensure_dir_exists d w : is_Some (files (ensure_dir d w) !! d).
Proof.
  unfold ensure_dir. case_bool_decide; [done|]. simpl.
  rewrite lookup_insert_eq. by eexists.
Qed.

Lemma ensure_dir_keeps d w p :
  is_Some (files w !! p) ∨ p ≠ d → files (ensure_dir d w) !! p = files w !! p.
Proof.
  intros Hp. unfold ensure_dir. case_bool_decide as Hd; [done|]. simpl.
  apply lookup_insert_ne. intros ->. by destruct Hp.
Qed.

Lemma ensure_dir_existing d w : is_Some (files w !! d) → ensure_dir d w = w.
Proof. intros Hd. unfold ensure_dir. by rewrite bool_decide_eq_true_2. Qed.

(** X20: [create_directories] makes sure that [images] and [logs] exist
    and touches nothing that exists already (whatever is at an existing
    path stays as it is); run a second time it creates nothing and reports
    both as existing. *)
Theorem create_directories_idempotent w :
  let w1 := world_after (create_directories w) in
  result (create_directories w) = Ret tt
  ∧ is_Some (files w1 !! "images") ∧ is_Some (files w1 !! "logs")
  ∧ (∀ p, is_Some (files w !! p) ∨ (p ≠ "images" ∧ p ≠ "logs") →
          files w1 !! p = files w !! p)
  ∧ create_directories w1
    = (Ret tt, w1, [Print "📁 Directory already exists: images";
                    Print "📁 Directory already exists: logs"]).
Proof.
  intros w1. unfold w1. rewrite (create_directories_run w).
  unfold result, world_after. simpl.
  assert (Himages : is_Some (files (ensure_dir "logs" (ensure_dir "images" w)) !! "images")).
  { rewrite ensure_dir_keeps; [apply ensure_dir_exists|by right]. }
  assert (Hlogs : is_Some (files (ensure_dir "logs" (ensure_dir "images" w)) !! "logs"))
    by apply ensure_dir_exists.
  split; [done|]. split; [done|]. split; [done|]. split.
  - intros p Hp. rewrite !ensure_dir_keeps; [done|tauto|].
    destruct Hp as [Hp|[_ Hp]]; [left|by right].
    rewrite ensure_dir_keeps; tauto.
  - rewrite create_directories_run.
    rewrite (ensure_dir_existing "images") by done.
    rewrite (ensure_dir_existing "logs") by done.
    by rewrite !bool_decide_eq_true_2.
Qed.

(** ** The further properties at concrete inputs *)

Lemma individual_text_dispatch_witness :
  calls (events (process_message quiet bot ann hi false empty_world))
  = [sendwhatmsg_instantly "+15551230000" "Hi" 20 true]
  ∧ outcome (events (process_message quiet bot ann hi false empty_world)) = Some Sent.
Proof.
  exact (individual_text_dispatch quiet bot ann hi empty_world eq_refl).
Defined.

Lemma group_text_dispatch_witness :
  let untyped := {| m_type := None; m_content := Some "Hello all"; m_image_path := None;
                    m_caption := None; m_time := Some "08:30" |} in
  let failing : TransportCall → option string := λ _, Some "browser closed" in
  calls (events (process_message failing bot family untyped true empty_world))
  = [sendwhatmsg_to_group_instantly "Family Group" "Hello all" 20 true]
  ∧ outcome (events (process_message failing bot family untyped true empty_world))
    = Some (Failed "Failed to send message to group Family Group: browser closed").
Proof.
  intros untyped failing.
  exact (group_text_dispatch failing bot family untyped empty_world eq_refl).
Defined.

Lemma validate_phone_number_idempotent_witness :
  result (validate_phone_number "+1 (555) 123-0000" empty_world) = Ret "+15551230000"
  ∧ result (validate_phone_number "+15551230000" empty_world) = Ret "+15551230000".
Proof.
  split; [reflexivity|].
  apply (validate_phone_number_idempotent "+1 (555) 123-0000" empty_world empty_world).
  reflexivity.
Defined.

Lemma dotless_formats_reject_everything_witness :
  let self := {| config_file := "config.yaml";
                 config := Some {| contacts := None;
                                   settings := Some {| wait_time := None; close_tab := None;
                                                       image_formats := Some ["jpg"; "png"];
                                                       timezone := None |} |} |} in
  is_Some (files world_with_picture !! "pic.png")
  ∧ result (validate_image_path self "pic.png" world_with_picture) = Ret false.
Proof.
  intros self. split; [by eexists|].
  apply (dotless_formats_reject_everything self "pic.png" world_with_picture).
  repeat constructor; discriminate.
Defined.

Lemma validate_image_path_ignores_path_case_witness :
  let w := {| files := {[ "a.JPG" := OtherFile; "b.jpg" := OtherFile ]}; registry := [] |} in
  result (validate_image_path bot "a.JPG" w) = result (validate_image_path bot "b.jpg" w).
Proof.
  intros w.
  apply (validate_image_path_ignores_path_case bot "a.JPG" "b.jpg" w);
    [by eexists|by eexists|reflexivity].
Defined.

Lemma init_writes_only_missing_config_witness :
  files (world_after (init "config.yaml" world_with_picture)) !! "pic.png"
  = Some OtherFile.
Proof.
  destruct (init_writes_only_missing_config "config.yaml" world_with_picture "pic.png")
    as [_ Hkeep].
  rewrite Hkeep; [reflexivity|discriminate|left; discriminate].
Defined.

Lemma unusable_config_schedules_nothing_witness :
  let w := {| files := {[ "config.yaml" := BadYamlFile "mapping values are not allowed" ]};
              registry := [] |} in
  result (init "config.yaml" w) = Ret {| config_file := "config.yaml"; config := None |}
  ∧ world_after (init "config.yaml" w) = w
  ∧ run_scheduler quiet strict_at {| config_file := "config.yaml"; config := None |}
      [nine 3 12] w
    = (Ret tt, w,
       [Log INFO "WhatsApp Bot scheduler started";
        Log ERROR "No configuration found. Exiting."]).
Proof.
  intros w.
  apply (unusable_config_schedules_nothing quiet strict_at "config.yaml"
           "mapping values are not allowed" [nine 3 12] w).
  left. reflexivity.
Defined.

Lemma refused_time_stops_scheduling_witness :
  let run := schedule_messages strict_at late_bot empty_world in
  result run = Raise (ScheduleValueError "Invalid time format: 25:00")
  ∧ (λ e, j_message (e_job e)) <$> registry (world_after run) = [hi].
Proof.
  destruct (refused_time_stops_scheduling strict_at late_bot late_config
              [(ann_with_late, hi, false)] (ann_with_late, late, false)
              [(ann_with_late, picture, false)] "Invalid time format: 25:00" empty_world)
    as (Hres & Hreg); try reflexivity.
  - intros y Hy _. apply list_elem_of_singleton in Hy as ->. reflexivity.
  - cbv zeta. rewrite Hres, Hreg. split; reflexivity.
Defined.

Lemma refused_time_aborts_run_witness :
  let run := run_scheduler quiet strict_at late_bot [nine 3 12; nine 4 12] empty_world in
  result run = Raise (ScheduleValueError "Invalid time format: 25:00")
  ∧ calls (events run) = [].
Proof.
  apply (refused_time_aborts_run quiet strict_at late_bot late_config
           [(ann_with_late, hi, false)] (ann_with_late, late, false)
           [(ann_with_late, picture, false)] "Invalid time format: 25:00");
    try reflexivity.
  intros y Hy _. apply list_elem_of_singleton in Hy as ->. reflexivity.
Defined.

Lemma sample_times_accepted :
  ∀ x, x ∈ timed_entries sample_config → strict_at (default "" (m_time x.1.2)) = None.
Proof.
  apply (proj1 (Forall_forall (λ x, strict_at (default "" (m_time x.1.2)) = None) _)).
  repeat constructor.
Defined.

Lemma run_scheduler_survives_transport_witness :
  let run := run_scheduler failing strict_at bot [nine 3 12; nine 3 42; nine 4 5]
               empty_world in
  result run = Ret tt
  ∧ last (events run) = Some (Print (String "010" "WhatsApp Bot stopped.")).
Proof.
  apply (run_scheduler_survives_transport failing bot strict_at sample_config
           [nine 3 12; nine 3 42; nine 4 5] empty_world);
    [reflexivity|exact sample_times_accepted].
Defined.

Lemma schedule_command_lists_nothing_witness :
  let run := main quiet strict_at (λ _, "job") ["whatsapp_automation.py"; "schedule"]
               [] world_with_sample in
  result run = Ret tt
  ∧ last (events run) = Some (Print "No jobs scheduled.")
  ∧ calls (events run) = []
  ∧ registry (world_after run) = [].
Proof.
  apply (schedule_command_lists_nothing quiet strict_at (λ _, "job")
           "whatsapp_automation.py" [] [] world_with_sample);
    [reflexivity|discriminate].
Defined.

Lemma unknown_command_prints_usage_witness :
  let run := main quiet strict_at (λ _, "job") ["whatsapp_automation.py"; "test"]
               [] world_with_sample in
  result run = Ret tt
  ∧ calls (events run) = []
  ∧ registry (world_after run) = [].
Proof.
  destruct (unknown_command_prints_usage quiet strict_at (λ _, "job")
              "whatsapp_automation.py" "test" [] [] world_with_sample)
    as (_ & Hres & Hcalls & Hreg);
    [discriminate|discriminate|by right|discriminate|].
  split; [exact Hres|]. split; [exact Hcalls|exact Hreg].
Defined.

Lemma test_command_sends_once_witness :
  let run := main quiet strict_at (λ _, "job")
               ["whatsapp_automation.py"; "test"; "+1 (555) 123-0000"; "see"; "you"]
               [] world_with_sample in
  result run = Ret tt
  ∧ calls (events run) = [sendwhatmsg_instantly "+15551230000" "see you" 20 true].
Proof.
  destruct (test_command_sends_once quiet strict_at (λ _, "job")
              "whatsapp_automation.py" "+1 (555) 123-0000" ["see"; "you"] []
              world_with_sample bot world_with_sample
              [Log INFO "Configuration loaded from config.yaml";
               Log INFO "WhatsApp Bot initialized successfully"])
    as (Hres & Hcalls & _); [discriminate|reflexivity|].
  split; [exact Hres|exact Hcalls].
Defined.

Lemma any_command_creates_sample_witness :
  let run := main quiet strict_at (λ _, "job") ["whatsapp_automation.py"; "run"]
               [nine 3 12] empty_world in
  result run = Ret tt
  ∧ files (world_after run) !! "config.yaml" = Some (YamlFile (Some sample_config))
  ∧ registry (world_after run) = [].
Proof.
  destruct (any_command_creates_sample quiet strict_at (λ _, "job")
              ["whatsapp_automation.py"; "run"] [nine 3 12] empty_world)
    as (Hres & Hfiles & Hreg); [reflexivity|].
  cbv zeta. rewrite Hres, Hfiles, Hreg. split; [done|]. split; [|done].
  apply lookup_insert_eq.
Defined.

Lemma schedule_messages_twice_doubles_witness :
  let w1 := world_after (schedule_messages strict_at bot empty_world) in
  let w2 := world_after (schedule_messages strict_at bot w1) in
  length (registry w2) = 6%nat.
Proof.
  intros w1 w2.
  pose proof (schedule_messages_twice_doubles strict_at bot sample_config empty_world
                eq_refl sample_times_accepted) as H.
  cbv zeta in H. unfold w2, w1. rewrite H. reflexivity.
Defined.

Lemma create_directories_idempotent_witness :
  let w1 := world_after (create_directories world_with_picture) in
  files w1 !! "pic.png" = Some OtherFile
  ∧ is_Some (files w1 !! "images") ∧ is_Some (files w1 !! "logs").
Proof.
  destruct (create_directories_idempotent world_with_picture)
    as (_ & Himages & Hlogs & Hkeep & _).
  cbv zeta. split; [|split; [exact Himages|exact Hlogs]].
  rewrite Hkeep; [reflexivity|]. left. by eexists.
Defined.
